(** * go-sccp: the UDT message codec and the digit-swap helpers

    A shallow embedding of [utils.StrToSwappedBytes], [utils.SwappedBytesToStr],
    [sccp.UDT] (constructor, encoder, decoder) and [sccp.ParseMessage],
    followed by the properties of these functions.

    Conventions.
    - A Go [int] is a [Z]; no length in this development comes near the
      64-bit range.
    - A [uint8] held in a struct field or a local is a [Z]; every [uint8]
      operation writes its reduction modulo 256 out ([u8]).
    - A byte stored in a buffer is a [byte]; a [[]byte] is a [list byte]
      whose capacity equals its length (what [make] and slice literals
      give).  A [string] is a Rocq [string]: both are sequences of octets.
    - A Go function that returns [(T, error)] and may panic returns an
      [outcome T]. *)

From Stdlib Require Import ZArith Lia.
From Stdlib.Strings Require Import Byte Ascii String.
From stdpp Require Import base tactics option list.

Local Open Scope Z_scope.

(* ===================================================================== *)
(** ** The Go runtime fragment the code relies on *)
(* ===================================================================== *)

Module Go.

(** The [error] values that the embedded functions can return. *)
Inductive error : Type :=
| ErrUnexpectedEOF                     (* io.ErrUnexpectedEOF *)
| UnsupportedTypeError (t : Z)         (* sccp.UnsupportedTypeError *)
| HexInvalidByteError (c : ascii)      (* hex.InvalidByteError *)
| HexErrLength                         (* hex.ErrLength *)
| ParamError (code : nat).             (* an error of package params *)

(** Run-time panics. *)
Inductive panic : Type :=
| IndexOutOfRange
| SliceBoundsOutOfRange
| NegativeLen
| NilDereference.

Inductive outcome (A : Type) : Type :=
| Ok (a : A)
| Err (e : error)
| Panic (p : panic).

Arguments Ok {A} a.
Arguments Err {A} e.
Arguments Panic {A} p.

Definition bind {A B} (m : outcome A) (k : A -> outcome B) : outcome B :=
  match m with
  | Ok a => k a
  | Err e => Err e
  | Panic p => Panic p
  end.

Definition omap {A B} (f : A -> B) (m : outcome A) : outcome B :=
  bind m (fun a => Ok (f a)).

(** [uint8(z)] and the result of any [uint8] arithmetic. *)
Definition u8 (z : Z) : Z := z mod 256.

Definition Z_of_byte (x : byte) : Z := Z.of_N (Byte.to_N x).

Definition byte_of_Z (z : Z) : byte :=
  match Byte.of_N (Z.to_N (u8 z)) with
  | Some x => x
  | None => x00
  end.

(** [len(b)]. *)
Definition len {A} (b : list A) : Z := Z.of_nat (length b).

(** [b[i]] as an rvalue. *)
Definition index {A} (b : list A) (i : Z) : outcome A :=
  if (0 <=? i) && (i <? len b)
  then match b !! Z.to_nat i with
       | Some x => Ok x
       | None => Panic IndexOutOfRange
       end
  else Panic IndexOutOfRange.

(** [b[i] = x]. *)
Definition store {A} (b : list A) (i : Z) (x : A) : outcome (list A) :=
  if (0 <=? i) && (i <? len b)
  then Ok (<[Z.to_nat i := x]> b)
  else Panic IndexOutOfRange.

(** [b[lo:hi]]. *)
Definition slice {A} (b : list A) (lo hi : Z) : outcome (list A) :=
  if (0 <=? lo) && (lo <=? hi) && (hi <=? len b)
  then Ok (take (Z.to_nat (hi - lo)) (drop (Z.to_nat lo) b))
  else Panic SliceBoundsOutOfRange.

(** [b[lo:]]. *)
Definition slice_from {A} (b : list A) (lo : Z) : outcome (list A) :=
  slice b lo (len b).

(** The effect on [b] of a callee that has rewritten the window
    [b[lo:lo+len(s)]] to [s]: a sub-slice shares its backing array. *)
Definition write_back {A} (b : list A) (lo : Z) (s : list A) : list A :=
  take (Z.to_nat lo) b ++ s ++ drop (Z.to_nat lo + length s) b.

(** [copy(b[lo:], src)]: copies [min(len(b)-lo, len(src))] elements. *)
Definition copy_at {A} (b : list A) (lo : Z) (src : list A) : list A :=
  write_back b lo (take (length b - Z.to_nat lo) src).

(** [make([]byte, n)]. *)
Definition make (n : Z) : outcome (list byte) :=
  if n <? 0 then Panic NegativeLen
  else Ok (replicate (Z.to_nat n) x00).

(** [*p] for a pointer field. *)
Definition deref {A} (p : option A) : outcome A :=
  match p with
  | Some a => Ok a
  | None => Panic NilDereference
  end.

End Go.

Export Go.

Declare Scope go_scope.
Delimit Scope go_scope with go.
Notation "x <- m ;; k" := (Go.bind m (fun x => k))
  (at level 100, m at next level, right associativity,
   format "'[v' x  <-  m ;; '/' k ']'") : go_scope.
Local Open Scope go_scope.

(* ===================================================================== *)
(** ** Package encoding/hex of the Go standard library *)
(* ===================================================================== *)

Module hex.

Definition code (c : ascii) : Z := Z.of_N (N_of_ascii c).

(** [hextable[v]] for a nibble [v]: the digits are lower case. *)
Definition hextable (v : Z) : ascii :=
  if v <? 10 then ascii_of_N (Z.to_N (48 + v))
  else ascii_of_N (Z.to_N (97 + (v - 10))).

(** [fromHexChar]: the value of a hexadecimal digit of either case. *)
Definition fromHexChar (c : ascii) : option Z :=
  let n := code c in
  if (48 <=? n) && (n <=? 57) then Some (n - 48)
  else if (97 <=? n) && (n <=? 102) then Some (n - 97 + 10)
  else if (65 <=? n) && (n <=? 70) then Some (n - 65 + 10)
  else None.

(** [hex.DecodeString]: two digits per byte, the first one in the high
    nibble; the first offending character is reported, and an odd
    number of digits is [ErrLength]. *)
Fixpoint DecodeString (s : string) : outcome (list byte) :=
  match s with
  | EmptyString => Ok []
  | String p EmptyString =>
      match fromHexChar p with
      | None => Err (HexInvalidByteError p)
      | Some _ => Err HexErrLength
      end
  | String p (String q rest) =>
      match fromHexChar p with
      | None => Err (HexInvalidByteError p)
      | Some a =>
          match fromHexChar q with
          | None => Err (HexInvalidByteError q)
          | Some b =>
              bs <- DecodeString rest;;
              Ok (byte_of_Z (Z.lor (Z.shiftl a 4) b) :: bs)
          end
      end
  end.

(** [hex.EncodeToString]. *)
Fixpoint EncodeToString (src : list byte) : string :=
  match src with
  | [] => EmptyString
  | v :: rest =>
      String (hextable (Z.shiftr (Z_of_byte v) 4))
        (String (hextable (Z.land (Z_of_byte v) 15))
           (EncodeToString rest))
  end.

End hex.

(* ===================================================================== *)
(** ** Package utils *)
(* ===================================================================== *)

Module utils.

Definition strlen (s : string) : Z := Z.of_nat (String.length s).

(** The body of the loop of [swap]:
    [t := ((raw[n] >> 4) & 0xf) + ((raw[n] << 4) & 0xf0)]. *)
Definition swap_byte (x : byte) : byte :=
  let r := Z_of_byte x in
  byte_of_Z (u8 (Z.land (Z.shiftr r 4) 15
                 + Z.land (u8 (Z.shiftl r 4)) 240)).

Definition swap (raw : list byte) : list byte := swap_byte <$> raw.

Definition StrToSwappedBytes (s filler : string) : outcome (list byte) :=
  raw <- (if strlen s mod 2 =? 0
          then hex.DecodeString s
          else hex.DecodeString (s ++ filler)%string);;
  Ok (swap raw).

Definition SwappedBytesToStr (raw : list byte) (cutLastDigit : bool)
  : outcome string :=
  let s := hex.EncodeToString (swap raw) in
  if cutLastDigit
  then (* s[:len(s)-1] *)
    if (0 <=? strlen s - 1)
    then Ok (String.substring 0 (Z.to_nat (strlen s - 1)) s)
    else Panic SliceBoundsOutOfRange
  else Ok s.

Definition BCDEncode (s : string) : outcome (list byte) :=
  StrToSwappedBytes s "f".

Definition BCDDecode (isOdd : bool) (b : list byte) : outcome string :=
  SwappedBytesToStr b isOdd.

(** [s[i]] for a string [s]. *)
Definition str_index (s : string) (i : Z) : outcome ascii :=
  if 0 <=? i
  then match String.get (Z.to_nat i) s with
       | Some c => Ok c
       | None => Panic IndexOutOfRange
       end
  else Panic IndexOutOfRange.

(** [string(c)] for a byte [c]: the UTF-8 encoding of the code point
    [c], one byte below 128 and two bytes from there on. *)
Definition string_of_byte (c : ascii) : string :=
  let n := hex.code c in
  if n <? 128 then String c EmptyString
  else String (ascii_of_N (Z.to_N (Z.lor 192 (Z.shiftr n 6))))
         (String (ascii_of_N (Z.to_N (Z.lor 128 (Z.land n 63))))
            EmptyString).

(** [Uint24To32]; the result is a [uint32]. *)
Definition Uint24To32 (b : list byte) : Z :=
  if negb (len b =? 3) then 0
  else match b with
       | [b0; b1; b2] =>
           Z.lor (Z.lor (Z.shiftl (Z_of_byte b0) 16)
                        (Z.shiftl (Z_of_byte b1) 8))
                 (Z_of_byte b2)
       | _ => 0
       end.

(** [Uint32To24], for a [uint32] [n]. *)
Definition Uint32To24 (n : Z) : list byte :=
  [byte_of_Z (Z.shiftr n 16); byte_of_Z (Z.shiftr n 8); byte_of_Z n].

(** [Uint40To64]; the result is a [uint64]. *)
Definition Uint40To64 (b : list byte) : Z :=
  if negb (len b =? 5) then 0
  else match b with
       | [b0; b1; b2; b3; b4] =>
           Z.lor (Z.lor (Z.lor (Z.lor (Z.shiftl (Z_of_byte b0) 32)
                                      (Z.shiftl (Z_of_byte b1) 24))
                               (Z.shiftl (Z_of_byte b2) 16))
                        (Z.shiftl (Z_of_byte b3) 8))
                 (Z_of_byte b4)
       | _ => 0
       end.

(** [Uint64To40], for a [uint64] [n]. *)
Definition Uint64To40 (n : Z) : list byte :=
  [byte_of_Z (Z.shiftr n 32); byte_of_Z (Z.shiftr n 24);
   byte_of_Z (Z.shiftr n 16); byte_of_Z (Z.shiftr n 8); byte_of_Z n].

(** [EncodePLMN].  In the two-digit branch the result is
    [append(c, n...)]; in the other one the three cells of
    [make([]byte, 3)] are assigned in turn. *)
Definition EncodePLMN (mcc mnc : string) : outcome (list byte) :=
  c <- StrToSwappedBytes mcc "f";;
  n <- StrToSwappedBytes mnc "f";;
  let b := replicate 3 x00 in
  if strlen mnc =? 2 then Ok (c ++ n)
  else
    c0 <- index c 0;;
    b <- store b 0 c0;;
    c1 <- index c 1;;
    n1 <- index n 1;;
    b <- store b 1
           (byte_of_Z
              (Z.lor (Z.land (Z_of_byte c1) 15)
                     (Z.land (u8 (Z.shiftl (Z_of_byte n1) 4)) 240)));;
    n0 <- index n 0;;
    b <- store b 2 n0;;
    Ok b.

(** [DecodePLMN]: the named result [err] is never assigned, so the
    function returns the two strings or panics. *)
Definition DecodePLMN (b : list byte) : outcome (string * string) :=
  let raw := hex.EncodeToString b in
  r1 <- str_index raw 1;;
  r0 <- str_index raw 0;;
  r3 <- str_index raw 3;;
  let mcc := (string_of_byte r1 ++ string_of_byte r0
              ++ string_of_byte r3)%string in
  r5 <- str_index raw 5;;
  r4 <- str_index raw 4;;
  let mnc := (string_of_byte r5 ++ string_of_byte r4)%string in
  r2 <- str_index raw 2;;
  let mnc := if String.eqb (string_of_byte r2) "f"
             then mnc
             else (mnc ++ string_of_byte r2)%string in
  Ok (mcc, mnc).

End utils.

(* ===================================================================== *)
(** ** Package params: the interface package sccp consumes *)
(* ===================================================================== *)

Module params.

(** Modelled from the spec: package params (types [ProtocolClass] and
    [PartyAddress] with their methods) is not among the sources.  The
    framing code of package sccp uses it only through the operations
    below, so they are taken as an interface:
    - [NewProtocolClass(cls, retOnErr)], [ProtocolClass.Value()] and
      [ProtocolClass.Read(b)], which yields the value read and the
      number of bytes consumed;
    - [PartyAddress.Length()], [PartyAddress.MarshalLen()],
      [PartyAddress.MarshalTo(b)], which rewrites the window it is
      handed and is given here as the new contents of that window, and
      the two parsers [ParseCalledPartyAddress], [ParseCallingPartyAddress]. *)
Class Codec : Type := {
  ProtocolClass : Type;
  PartyAddress : Type;
  NewProtocolClass : Z -> bool -> ProtocolClass;
  ProtocolClass_Value : ProtocolClass -> byte;
  ProtocolClass_Read : list byte -> outcome (ProtocolClass * Z);
  PartyAddress_Length : PartyAddress -> Z;
  PartyAddress_MarshalLen : PartyAddress -> Z;
  PartyAddress_MarshalTo : PartyAddress -> list byte -> outcome (list byte);
  ParseCalledPartyAddress : list byte -> outcome PartyAddress;
  ParseCallingPartyAddress : list byte -> outcome PartyAddress
}.

(** Modelled from the spec: the collaborator contracts of its section 6.
    The protocol class codec produces and consumes exactly one byte; a
    party address is a block whose first byte is its own remaining
    length, [Length()] is that remaining length, and a block written by
    [MarshalTo] into a window of exactly [MarshalLen()] bytes is read
    back by both parsers. *)
Class Contract (C : Codec) : Prop := {
  Read_Value : forall p rest,
    ProtocolClass_Read (ProtocolClass_Value p :: rest) = Ok (p, 1);
  Length_nonneg : forall a, 0 <= PartyAddress_Length a;
  MarshalLen_Length : forall a,
    PartyAddress_MarshalLen a = PartyAddress_Length a + 1;
  MarshalTo_Parse : forall a w,
    PartyAddress_Length a <= 255 ->
    len w = PartyAddress_MarshalLen a ->
    exists w',
      PartyAddress_MarshalTo a w = Ok w' /\
      length w' = length w /\
      ParseCalledPartyAddress w' = Ok a /\
      ParseCallingPartyAddress w' = Ok a
}.

(** A concrete codec meeting the contract, with the party address kept
    opaque: it supplies the inputs at which the properties below are
    evaluated. *)
Module Opaque.

(** Modelled from the spec: [params.NewProtocolClass] is missing.  A
    protocol class is its one byte: the class number with the
    return-on-error flag as the top bit. *)
Definition NewProtocolClass (cls : Z) (retOnErr : bool) : byte :=
  byte_of_Z (Z.lor cls (if retOnErr then 128 else 0)).

(** Modelled from the spec: [ProtocolClass.Read] is missing.  It consumes
    exactly one byte. *)
Definition Read (b : list byte) : outcome (byte * Z) :=
  match b with
  | [] => Err ErrUnexpectedEOF
  | x :: _ => Ok (x, 1)
  end.

(** Modelled from the spec: [PartyAddress.Length] is missing.  A party
    address is the sequence of bytes that follow its length prefix, and
    its length is their number. *)
Definition Length (a : list byte) : Z := len a.

(** Modelled from the spec: [PartyAddress.MarshalLen] is missing.  The
    block is the length prefix and the bytes it counts. *)
Definition MarshalLen (a : list byte) : Z := len a + 1.

(** Modelled from the spec: [PartyAddress.MarshalTo] is missing.  It
    writes the length prefix and the bytes it counts at the start of the
    window. *)
Definition MarshalTo (a : list byte) (w : list byte)
  : outcome (list byte) :=
  if len w <? MarshalLen a then Err ErrUnexpectedEOF
  else Ok (byte_of_Z (len a) :: a ++ drop (S (length a)) w).

(** Modelled from the spec: [params.ParseCalledPartyAddress] and
    [params.ParseCallingPartyAddress] are missing.  The first byte is the
    remaining length of the block; that many bytes must follow. *)
Definition Parse (w : list byte) : outcome (list byte) :=
  match w with
  | [] => Err ErrUnexpectedEOF
  | n :: rest =>
      if len rest <? Z_of_byte n then Err ErrUnexpectedEOF
      else Ok (take (Z.to_nat (Z_of_byte n)) rest)
  end.

Definition codec : Codec :=
  Build_Codec byte (list byte)
    NewProtocolClass (fun p => p) Read
    Length MarshalLen MarshalTo Parse Parse.

End Opaque.

End params.

(* ===================================================================== *)
(** ** Package sccp *)
(* ===================================================================== *)

Module sccp.

Definition MsgType := Z.

Definition MsgTypeCR : MsgType := 1.
Definition MsgTypeCC : MsgType := 2.
Definition MsgTypeCREF : MsgType := 3.
Definition MsgTypeRLSD : MsgType := 4.
Definition MsgTypeRLC : MsgType := 5.
Definition MsgTypeDT1 : MsgType := 6.
Definition MsgTypeDT2 : MsgType := 7.
Definition MsgTypeAK : MsgType := 8.
Definition MsgTypeUDT : MsgType := 9.
Definition MsgTypeUDTS : MsgType := 10.
Definition MsgTypeED : MsgType := 11.
Definition MsgTypeEA : MsgType := 12.
Definition MsgTypeRSR : MsgType := 13.
Definition MsgTypeRSC : MsgType := 14.
Definition MsgTypeERR : MsgType := 15.
Definition MsgTypeIT : MsgType := 16.
Definition MsgTypeXUDT : MsgType := 17.
Definition MsgTypeXUDTS : MsgType := 18.
Definition MsgTypeLUDT : MsgType := 19.
Definition MsgTypeLUDTS : MsgType := 20.

Section WithParams.

Context {C : params.Codec}.

(** [type UDT struct].  [Type] is a reserved word, hence [Type_]; the
    three pointer fields are [nil]-able. *)
Record UDT : Type := mkUDT {
  Type_ : MsgType;
  ProtocolClass : option params.ProtocolClass;
  Ptr1 : Z;
  Ptr2 : Z;
  Ptr3 : Z;
  CalledPartyAddress : option params.PartyAddress;
  CallingPartyAddress : option params.PartyAddress;
  DataLength : Z;
  Data : list byte
}.

Definition set_Ptr2 (u : UDT) (v : Z) : UDT :=
  mkUDT (Type_ u) (ProtocolClass u) (Ptr1 u) v (Ptr3 u)
        (CalledPartyAddress u) (CallingPartyAddress u)
        (DataLength u) (Data u).

Definition set_Ptr3 (u : UDT) (v : Z) : UDT :=
  mkUDT (Type_ u) (ProtocolClass u) (Ptr1 u) (Ptr2 u) v
        (CalledPartyAddress u) (CallingPartyAddress u)
        (DataLength u) (Data u).

Definition set_DataLength (u : UDT) (v : Z) : UDT :=
  mkUDT (Type_ u) (ProtocolClass u) (Ptr1 u) (Ptr2 u) (Ptr3 u)
        (CalledPartyAddress u) (CallingPartyAddress u)
        v (Data u).

(** [u.DataLength = uint8(len(u.Data))]. *)
Definition SetLength (u : UDT) : UDT :=
  set_DataLength u (u8 (len (Data u))).

(** [NewUDT].  The constructor calls [Length()] on both addresses, so
    they are taken non-nil. *)
Definition NewUDT (pcls : Z) (retOnErr : bool)
    (cdpa cgpa : params.PartyAddress) (data : list byte) : UDT :=
  let u := {| Type_ := MsgTypeUDT;
              ProtocolClass := Some (params.NewProtocolClass pcls retOnErr);
              Ptr1 := 3;
              Ptr2 := 0;
              Ptr3 := 0;
              CalledPartyAddress := Some cdpa;
              CallingPartyAddress := Some cgpa;
              DataLength := 0;
              Data := data |} in
  let u := set_Ptr2 u (u8 (Ptr1 u + u8 (params.PartyAddress_Length cdpa))) in
  let u := set_Ptr3 u (u8 (Ptr2 u + u8 (params.PartyAddress_Length cgpa))) in
  SetLength u.

Definition MarshalLen (u : UDT) : Z :=
  let l := 6 in
  let l := match CalledPartyAddress u with
           | Some param => l + params.PartyAddress_MarshalLen param
           | None => l
           end in
  let l := match CallingPartyAddress u with
           | Some param => l + params.PartyAddress_MarshalLen param
           | None => l
           end in
  l + len (Data u).

(** [MarshalTo]: the result is the contents of [b] on the [nil]
    return.  All pointer sums are [uint8] sums. *)
Definition MarshalTo (u : UDT) (b : list byte) : outcome (list byte) :=
  let l := len b in
  if l <? 5 then Err ErrUnexpectedEOF else
  b <- store b 0 (byte_of_Z (Type_ u));;
  pc <- deref (ProtocolClass u);;
  b <- store b 1 (params.ProtocolClass_Value pc);;
  b <- store b 2 (byte_of_Z (Ptr1 u));;
  if l <? Ptr1 u then Err ErrUnexpectedEOF else
  b <- store b 3 (byte_of_Z (Ptr2 u));;
  if l <? u8 (Ptr2 u + 3) then Err ErrUnexpectedEOF else
  b <- store b 4 (byte_of_Z (Ptr3 u));;
  if l <? u8 (Ptr3 u + 5) then Err ErrUnexpectedEOF else
  w <- slice b 5 (u8 (Ptr2 u + 3));;
  cdpa <- deref (CalledPartyAddress u);;
  w <- params.PartyAddress_MarshalTo cdpa w;;
  let b := write_back b 5 w in
  w <- slice b (u8 (Ptr2 u + 3)) (u8 (Ptr3 u + 4));;
  cgpa <- deref (CallingPartyAddress u);;
  w <- params.PartyAddress_MarshalTo cgpa w;;
  let b := write_back b (u8 (Ptr2 u + 3)) w in
  b <- store b (u8 (Ptr3 u + 4)) (byte_of_Z (DataLength u));;
  let offset := u8 (Ptr3 u + 5) in
  rest <- slice_from b offset;;
  if len rest >=? DataLength u
  then Ok (copy_at b offset (Data u))
  else Err ErrUnexpectedEOF.

Definition MarshalBinary (u : UDT) : outcome (list byte) :=
  b <- make (MarshalLen u);;
  MarshalTo u b.

(** [UnmarshalBinary]: every field of the receiver is assigned before
    the [nil] return, so the result is given as the decoded struct. *)
Definition UnmarshalBinary (b : list byte) : outcome UDT :=
  let l := len b in
  if l <=? 5 then Err ErrUnexpectedEOF else
  type <- index b 0;;
  let offset := 1 in
  w <- slice_from b offset;;
  r <- params.ProtocolClass_Read w;;
  let (pc, n) := r : _ * Z in
  let offset := offset + n in
  p1 <- index b offset;;
  let ptr1 := Z_of_byte p1 in
  if l <? ptr1 then Err ErrUnexpectedEOF else
  p2 <- index b (offset + 1);;
  let ptr2 := Z_of_byte p2 in
  if l <? u8 (ptr2 + 3) then Err ErrUnexpectedEOF else
  p3 <- index b (offset + 2);;
  let ptr3 := Z_of_byte p3 in
  if l <? u8 (ptr3 + 5) then Err ErrUnexpectedEOF else
  let offset := offset + 3 in
  w <- slice b offset (u8 (ptr2 + 3));;
  cdpa <- params.ParseCalledPartyAddress w;;
  w <- slice b (u8 (ptr2 + 3)) (u8 (ptr3 + 4));;
  cgpa <- params.ParseCallingPartyAddress w;;
  d <- index b (u8 (ptr3 + 4));;
  let dataLength := Z_of_byte d in
  let offset := u8 (ptr3 + 5) in
  let dataLen := dataLength in
  if l >=? offset + dataLen
  then
    data <- slice b offset (offset + dataLen);;
    Ok {| Type_ := Z_of_byte type;
          ProtocolClass := Some pc;
          Ptr1 := ptr1;
          Ptr2 := ptr2;
          Ptr3 := ptr3;
          CalledPartyAddress := Some cdpa;
          CallingPartyAddress := Some cgpa;
          DataLength := dataLength;
          Data := data |}
  else Err ErrUnexpectedEOF.

Definition ParseUDT (b : list byte) : outcome UDT :=
  UnmarshalBinary b.

(** [type Message interface]: UDT is its only implementation. *)
Inductive Message : Type :=
| MessageUDT (u : UDT).

(** The [switch MsgType(b[0])] of [ParseMessage]: the decoder of the
    selected variant, or the [default] branch. *)
Definition ParseMessage_switch (t : MsgType)
  : outcome (list byte -> outcome Message) :=
  if t =? MsgTypeUDT
  then Ok (fun b => omap MessageUDT (UnmarshalBinary b))
  else Err (UnsupportedTypeError t).

Definition ParseMessage (b : list byte) : outcome Message :=
  b0 <- index b 0;;
  m <- ParseMessage_switch (Z_of_byte b0);;
  m b.

End WithParams.

Arguments UDT : clear implicits.
Arguments Message : clear implicits.

End sccp.

(* ===================================================================== *)
(** ** Predicates used to state the properties *)
(* ===================================================================== *)

Module preds.

(** Every character of [s] satisfies [p]. *)
Fixpoint all_chars (p : ascii -> bool) (s : string) : bool :=
  match s with
  | EmptyString => true
  | String c rest => p c && all_chars p rest
  end.

(** A hexadecimal digit of either case: what [hex.DecodeString] accepts. *)
Definition is_hex_digit (c : ascii) : bool :=
  match hex.fromHexChar c with
  | Some _ => true
  | None => false
  end.

(** One of [0-9a-f]. *)
Definition is_lower_hex_digit (c : ascii) : bool :=
  let n := hex.code c in
  ((48 <=? n) && (n <=? 57)) || ((97 <=? n) && (n <=? 102)).

(** [A-F] mapped to [a-f], every other character unchanged. *)
Definition lower_digit (c : ascii) : ascii :=
  let n := hex.code c in
  if (65 <=? n) && (n <=? 70) then ascii_of_N (Z.to_N (n + 32)) else c.

Fixpoint lower_digits (s : string) : string :=
  match s with
  | EmptyString => EmptyString
  | String c rest => String (lower_digit c) (lower_digits rest)
  end.

(** One of [0-9]. *)
Definition is_decimal_digit (c : ascii) : bool :=
  let n := hex.code c in
  (48 <=? n) && (n <=? 57).

(** The first character of [s] that is no hexadecimal digit. *)
Fixpoint first_non_hex (s : string) : option ascii :=
  match s with
  | EmptyString => None
  | String c rest => if is_hex_digit c then first_non_hex rest else Some c
  end.

(** [PartyAddress.MarshalTo] leaves the length of the window it is
    handed unchanged, as a Go callee that writes through a slice does. *)
Definition writes_in_place (C : params.Codec) : Prop :=
  forall (a : params.PartyAddress) (w w' : list byte),
    params.PartyAddress_MarshalTo a w = Ok w' -> length w' = length w.

(** The decoders of package params return a value or an error, and
    [ProtocolClass.Read] consumes one byte. *)
Definition decoders_never_panic (C : params.Codec) : Prop :=
  (forall w p, params.ProtocolClass_Read w <> Panic p) /\
  (forall w pc n, params.ProtocolClass_Read w = Ok (pc, n) -> n = 1) /\
  (forall w p, params.ParseCalledPartyAddress w <> Panic p) /\
  (forall w p, params.ParseCallingPartyAddress w <> Panic p).

End preds.

(* ===================================================================== *)
(** ** Concrete frames and messages *)
(* ===================================================================== *)

Module examples.

Definition bytes (l : list Z) : list byte := byte_of_Z <$> l.

Definition codec : params.Codec := params.Opaque.codec.

(** A UDT of protocol class 0 without return-on-error, two party
    addresses of length 0 and the payload [DE AD]. *)
Definition scenario : sccp.UDT codec :=
  sccp.NewUDT (C := codec) 0 false [] [] (bytes [222; 173]).

(** The ten bytes [MarshalBinary] produces for [scenario]. *)
Definition scenario_wire : list byte :=
  bytes [9; 0; 3; 3; 3; 0; 0; 2; 222; 173].

(** The eight bytes [09 00 03 03 03 02 DE AD]. *)
Definition scenario_eight : list byte :=
  bytes [9; 0; 3; 3; 3; 2; 222; 173].

(** Eight bytes whose second pointer is 253, so that [Ptr2+3] is 256. *)
Definition frame_ptr2_253 : list byte :=
  bytes [9; 0; 3; 253; 3; 0; 0; 0].

(** 256 bytes whose third pointer is 251: the data-length byte is the
    last one, at index 255, and declares 5 bytes of data. *)
Definition frame_ptr3_251 : list byte :=
  bytes ([9; 0; 3; 3; 251; 0; 248] ++ replicate 248 7 ++ [5]).

(** A payload of 256 bytes. *)
Definition payload_256 : list byte := replicate 256 x00.

(** A UDT with addresses of length 0 and the 256-byte payload. *)
Definition oversized : sccp.UDT codec :=
  sccp.NewUDT (C := codec) 0 false [] [] payload_256.

(** A party address of length 253. *)
Definition address_253 : list byte := replicate 253 x00.

(** A UDT whose called party address is [address_253]. *)
Definition long_address : sccp.UDT codec :=
  sccp.NewUDT (C := codec) 0 false address_253 [] (bytes [222; 173]).

(** A party address of length 248. *)
Definition address_248 : list byte := replicate 248 x00.

(** A UDT whose address lengths sum to 248. *)
Definition address_sum_248 : sccp.UDT codec :=
  sccp.NewUDT (C := codec) 0 false address_248 [] (bytes [222; 173]).

(** Eight bytes whose second pointer is 0. *)
Definition frame_ptr2_0 : list byte :=
  bytes [9; 0; 3; 0; 3; 0; 0; 5].

End examples.

(* ===================================================================== *)
(** ** Bytes and [uint8] values *)
(* ===================================================================== *)

Ltac zmod := Z.div_mod_to_equations; lia.

Lemma Z_of_byte_range x : 0 <= Z_of_byte x < 256.
Proof.
  unfold Z_of_byte. pose proof (Byte.to_N_bounded x). lia.
Qed.

Lemma byte_of_Z_of_byte x : byte_of_Z (Z_of_byte x) = x.
Proof.
  unfold byte_of_Z, Z_of_byte, u8.
  pose proof (Byte.to_N_bounded x).
  rewrite Z.mod_small by lia.
  rewrite N2Z.id, Byte.of_to_N. reflexivity.
Qed.

Lemma Z_of_byte_of_Z z : Z_of_byte (byte_of_Z z) = u8 z.
Proof.
  unfold byte_of_Z, Z_of_byte.
  assert (Hr : 0 <= u8 z < 256) by (unfold u8; apply Z.mod_pos_bound; lia).
  destruct (Byte.of_N (Z.to_N (u8 z))) as [x|] eqn:E.
  - apply Byte.to_of_N in E. rewrite E. lia.
  - apply Byte.of_N_None_iff in E. lia.
Qed.

Lemma u8_range z : 0 <= u8 z < 256.
Proof. unfold u8. apply Z.mod_pos_bound. lia. Qed.

Lemma u8_add_u8_r a z : u8 (a + u8 z) = u8 (a + z).
Proof. unfold u8. apply Zplus_mod_idemp_r. Qed.

Lemma u8_small z : 0 <= z < 256 -> u8 z = z.
Proof. intros. unfold u8. apply Z.mod_small. lia. Qed.

Lemma Z_of_byte_of_Z_small z : 0 <= z < 256 -> Z_of_byte (byte_of_Z z) = z.
Proof. intros. rewrite Z_of_byte_of_Z. apply u8_small. assumption. Qed.

(* ===================================================================== *)
(** ** Properties of package utils *)
(* ===================================================================== *)

Module UtilsSpec.

Import utils preds.

Lemma swap_byte_involutive x : swap_byte (swap_byte x) = x.
Proof. destruct x; reflexivity. Qed.

Lemma swap_involutive raw : swap (swap raw) = raw.
Proof.
  unfold swap. induction raw as [|x raw IH]; simpl.
  - reflexivity.
  - rewrite swap_byte_involutive. f_equal. exact IH.
Qed.

Ltac enum_nibble a :=
  let H := fresh "H" in
  assert (H : a = 0 \/ a = 1 \/ a = 2 \/ a = 3 \/ a = 4 \/ a = 5 \/ a = 6
              \/ a = 7 \/ a = 8 \/ a = 9 \/ a = 10 \/ a = 11 \/ a = 12
              \/ a = 13 \/ a = 14 \/ a = 15) by lia;
  repeat (destruct H as [H|H]); subst a.

(** The byte built from two nibbles gives them back to the encoder. *)
Lemma nibbles_of_byte a b :
  0 <= a < 16 -> 0 <= b < 16 ->
  Z.shiftr (Z_of_byte (byte_of_Z (Z.lor (Z.shiftl a 4) b))) 4 = a /\
  Z.land (Z_of_byte (byte_of_Z (Z.lor (Z.shiftl a 4) b))) 15 = b.
Proof.
  intros Ha Hb. enum_nibble a; enum_nibble b; split; reflexivity.
Qed.

(** Decoding a digit and encoding its value lower-cases it. *)
Lemma hextable_fromHexChar c v :
  hex.fromHexChar c = Some v ->
  0 <= v < 16 /\ hex.hextable v = lower_digit c.
Proof.
  destruct c as [[] [] [] [] [] [] [] []]; vm_compute; intros E;
    try discriminate E; injection E as <-;
    (split; [split; [discriminate | reflexivity] | reflexivity]).
Qed.

Lemma lower_digit_lower c :
  is_lower_hex_digit c = true -> lower_digit c = c.
Proof.
  destruct c as [[] [] [] [] [] [] [] []]; vm_compute; intros E;
    try discriminate E; reflexivity.
Qed.

Lemma lower_hex_is_hex c :
  is_lower_hex_digit c = true -> is_hex_digit c = true.
Proof.
  destruct c as [[] [] [] [] [] [] [] []]; vm_compute; intros E;
    try discriminate E; reflexivity.
Qed.

Lemma lower_digits_lower s :
  all_chars is_lower_hex_digit s = true -> lower_digits s = s.
Proof.
  induction s as [|c s IH]; simpl; intros H.
  - reflexivity.
  - apply andb_prop in H as [Hc Hs].
    rewrite (lower_digit_lower c Hc), (IH Hs). reflexivity.
Qed.

Lemma all_chars_impl (p q : ascii -> bool) s :
  (forall c, p c = true -> q c = true) ->
  all_chars p s = true -> all_chars q s = true.
Proof.
  intros Hpq. induction s as [|c s IH]; simpl; intros H.
  - reflexivity.
  - apply andb_prop in H as [Hc Hs].
    rewrite (Hpq c Hc), (IH Hs). reflexivity.
Qed.

(** Induction over a string two characters at a time. *)
Lemma string_pair_ind (P : string -> Prop) :
  P EmptyString ->
  (forall c, P (String c EmptyString)) ->
  (forall c d s, P s -> P (String c (String d s))) ->
  forall s, P s.
Proof.
  intros H0 H1 H2 s.
  assert (H : P s /\ forall c, P (String c s)).
  { induction s as [|d s [IHs IHc]].
    - split; [exact H0 | exact H1].
    - split; [apply IHc | intros c; apply H2, IHs]. }
  apply H.
Qed.

(** An even number of hexadecimal digits always decodes, and encoding
    the decoded bytes gives the digits back in lower case. *)
Lemma DecodeString_EncodeToString s :
  strlen s mod 2 = 0 ->
  all_chars is_hex_digit s = true ->
  exists raw,
    hex.DecodeString s = Ok raw /\
    hex.EncodeToString raw = lower_digits s.
Proof.
  induction s as [| c | c d s IH] using string_pair_ind; intros Hlen Hhex.
  - exists []. split; reflexivity.
  - exfalso. vm_compute in Hlen. discriminate Hlen.
  - assert (Hlen' : strlen s mod 2 = 0).
    { unfold strlen in *. simpl String.length in Hlen. zmod. }
    simpl in Hhex.
    apply andb_prop in Hhex as [Hc Hhex].
    apply andb_prop in Hhex as [Hd Hhex].
    destruct (IH Hlen' Hhex) as (raw & Hdec & Henc).
    unfold is_hex_digit in Hc, Hd.
    destruct (hex.fromHexChar c) as [a|] eqn:Ea; [|discriminate Hc].
    destruct (hex.fromHexChar d) as [b|] eqn:Eb; [|discriminate Hd].
    destruct (hextable_fromHexChar c a Ea) as [Ra La].
    destruct (hextable_fromHexChar d b Eb) as [Rb Lb].
    destruct (nibbles_of_byte a b Ra Rb) as [Hhi Hlo].
    exists (byte_of_Z (Z.lor (Z.shiftl a 4) b) :: raw). split.
    + cbn [hex.DecodeString]. rewrite Ea, Eb, Hdec. reflexivity.
    + cbn [hex.EncodeToString lower_digits].
      rewrite Hhi, Hlo, La, Lb, Henc. reflexivity.
Qed.

(** For an even number of hexadecimal digits of either case the two
    functions compose to lower-casing. *)
Lemma swapped_roundtrip_lowercases s :
  strlen s mod 2 = 0 ->
  all_chars is_hex_digit s = true ->
  exists raw,
    StrToSwappedBytes s "f" = Ok raw /\
    SwappedBytesToStr raw false = Ok (lower_digits s).
Proof.
  intros Hlen Hhex.
  destruct (DecodeString_EncodeToString s Hlen Hhex) as (raw & Hdec & Henc).
  exists (swap raw). split.
  - unfold StrToSwappedBytes. rewrite Hlen. simpl. rewrite Hdec. reflexivity.
  - unfold SwappedBytesToStr. rewrite swap_involutive, Henc. reflexivity.
Qed.

(** C7 (as amended): for every string [s] of even length made only of
    the digits [0-9a-f], [SwappedBytesToStr(StrToSwappedBytes(s, "f"),
    false)] is [s]. *)
Theorem swapped_roundtrip_lower_hex s :
  strlen s mod 2 = 0 ->
  all_chars is_lower_hex_digit s = true ->
  exists raw,
    StrToSwappedBytes s "f" = Ok raw /\
    SwappedBytesToStr raw false = Ok s.
Proof.
  intros Hlen Hlow.
  destruct (swapped_roundtrip_lowercases s Hlen) as (raw & Henc & Hdec).
  { revert Hlow. apply all_chars_impl, lower_hex_is_hex. }
  exists raw. split; [exact Henc|].
  rewrite Hdec, (lower_digits_lower s Hlow). reflexivity.
Qed.

Lemma swapped_roundtrip_lower_hex_witness :
  exists raw,
    StrToSwappedBytes "0123456789abcdef" "f" = Ok raw /\
    SwappedBytesToStr raw false = Ok "0123456789abcdef"%string.
Proof.
  apply (swapped_roundtrip_lower_hex "0123456789abcdef"); reflexivity.
Defined.

(** C7 as stated fails on upper-case digits: ["AB"] is an even-length
    string of hexadecimal digits, it encodes to the byte [0xBA], and
    that byte decodes to ["ab"]. *)
Lemma swapped_roundtrip_upper_case_differs :
  strlen "AB" mod 2 = 0 /\
  all_chars is_hex_digit "AB" = true /\
  StrToSwappedBytes "AB" "f" = Ok [byte_of_Z 186] /\
  SwappedBytesToStr [byte_of_Z 186] false = Ok "ab"%string /\
  "ab"%string <> "AB"%string.
Proof.
  repeat split; try reflexivity. discriminate.
Qed.

(** C8: [SwappedBytesToStr] on the empty byte sequence with the
    cut-last-digit flag set evaluates [s[:len(s)-1]] with [len(s) = 0]
    and panics. *)
Theorem SwappedBytesToStr_empty_cut_panics :
  SwappedBytesToStr [] true = Panic SliceBoundsOutOfRange.
Proof. reflexivity. Qed.

(** Everywhere else [SwappedBytesToStr] returns a string. *)
Lemma SwappedBytesToStr_total_elsewhere raw cut :
  cut = false \/ raw <> [] ->
  exists s, SwappedBytesToStr raw cut = Ok s.
Proof.
  intros H. unfold SwappedBytesToStr. destruct cut.
  - destruct H as [H|H]; [discriminate H|].
    destruct raw as [|x raw]; [contradiction|].
    eexists. cbn [swap fmap list_fmap hex.EncodeToString].
    unfold strlen. cbn [String.length].
    destruct (0 <=? _) eqn:E; [reflexivity|].
    apply Z.leb_gt in E. lia.
  - eexists. reflexivity.
Qed.

End UtilsSpec.

(* ===================================================================== *)
(** ** Properties of package sccp: constructor and dispatcher *)
(* ===================================================================== *)

Module SccpSpec.

Import params sccp examples.

(** What [NewUDT] stores, in [uint8] arithmetic. *)
Lemma NewUDT_fields_mod_256 {C : Codec} pcls retOnErr cdpa cgpa data :
  let u := NewUDT pcls retOnErr cdpa cgpa data in
  Type_ u = MsgTypeUDT /\
  ProtocolClass u = Some (NewProtocolClass pcls retOnErr) /\
  Ptr1 u = 3 /\
  Ptr2 u = (3 + PartyAddress_Length cdpa) mod 256 /\
  Ptr3 u = (Ptr2 u + PartyAddress_Length cgpa) mod 256 /\
  CalledPartyAddress u = Some cdpa /\
  CallingPartyAddress u = Some cgpa /\
  DataLength u = len data mod 256 /\
  Data u = data.
Proof.
  cbn. repeat split; try reflexivity; apply u8_add_u8_r.
Qed.

(** C5 (as amended): when [3 + length(A) + length(B)] and the payload
    length fit a [uint8], [NewUDT] sets [Ptr1 = 3],
    [Ptr2 = 3 + length(A)], [Ptr3 = Ptr2 + length(B)] and
    [DataLength = len(payload)]. *)
Theorem NewUDT_pointers {C : Codec} pcls retOnErr cdpa cgpa data :
  0 <= PartyAddress_Length cdpa ->
  0 <= PartyAddress_Length cgpa ->
  3 + PartyAddress_Length cdpa + PartyAddress_Length cgpa <= 255 ->
  len data <= 255 ->
  let u := NewUDT pcls retOnErr cdpa cgpa data in
  Ptr1 u = 3 /\
  Ptr2 u = 3 + PartyAddress_Length cdpa /\
  Ptr3 u = Ptr2 u + PartyAddress_Length cgpa /\
  DataLength u = len data.
Proof.
  intros HA HB Hsum Hdata u.
  destruct (NewUDT_fields_mod_256 pcls retOnErr cdpa cgpa data)
    as (_ & _ & H1 & H2 & H3 & _ & _ & HL & _).
  fold u in H1, H2, H3, HL.
  assert (E2 : Ptr2 u = 3 + PartyAddress_Length cdpa).
  { rewrite H2. apply Z.mod_small. lia. }
  split; [exact H1|]. split; [exact E2|]. split.
  - rewrite H3, E2. apply Z.mod_small. lia.
  - rewrite HL. apply Z.mod_small. unfold len in *. lia.
Qed.

Lemma NewUDT_pointers_witness :
  let u := scenario in
  Ptr1 u = 3 /\
  Ptr2 u = 3 + PartyAddress_Length (Codec := codec) [] /\
  Ptr3 u = Ptr2 u + PartyAddress_Length (Codec := codec) [] /\
  DataLength u = len (bytes [222; 173]).
Proof.
  apply (NewUDT_pointers (C := codec) 0 false [] [] (bytes [222; 173]));
    vm_compute; discriminate.
Defined.

(** C5 as stated fails for a payload of 256 bytes, where [DataLength]
    is 0, and for a called party address of length 253, where [Ptr2]
    is 0. *)
Lemma NewUDT_fields_wrap :
  (len payload_256 = 256 /\
   DataLength oversized = 0 /\
   DataLength oversized <> len payload_256) /\
  (PartyAddress_Length (Codec := codec) address_253 = 253 /\
   Ptr2 long_address = 0 /\
   Ptr2 long_address
     <> 3 + PartyAddress_Length (Codec := codec) address_253).
Proof.
  repeat split; vm_compute; discriminate.
Qed.

(** C10: [SetLength] stores [len(Data) mod 256]; for a payload longer
    than 255 bytes that is not the payload length, and a UDT built by
    [NewUDT] from such a payload declares a wrong data length. *)
Theorem SetLength_mod_256 {C : Codec} (u : UDT C) pcls retOnErr cdpa cgpa :
  255 < len (Data u) ->
  DataLength (SetLength u) = len (Data u) mod 256 /\
  DataLength (SetLength u) <> len (Data (SetLength u)) /\
  let m := NewUDT pcls retOnErr cdpa cgpa (Data u) in
  Data m = Data u /\
  DataLength m = len (Data u) mod 256 /\
  DataLength m <> len (Data m).
Proof.
  intros Hlong.
  assert (Hne : len (Data u) mod 256 <> len (Data u)).
  { pose proof (Z.mod_pos_bound (len (Data u)) 256). lia. }
  cbn. unfold u8. repeat split; assumption.
Qed.

Lemma SetLength_mod_256_witness :
  DataLength (SetLength oversized) = len (Data oversized) mod 256 /\
  DataLength (SetLength oversized) <> len (Data (SetLength oversized)) /\
  let m := NewUDT (C := codec) 0 false [] [] (Data oversized) in
  Data m = Data oversized /\
  DataLength m = len (Data oversized) mod 256 /\
  DataLength m <> len (Data m).
Proof.
  apply (SetLength_mod_256 oversized 0 false [] []).
  vm_compute. reflexivity.
Defined.

Lemma ParseMessage_cons {C : Codec} b0 rest :
  ParseMessage (b0 :: rest) =
  bind (ParseMessage_switch (Z_of_byte b0)) (fun m => m (b0 :: rest)).
Proof. reflexivity. Qed.

(** The [switch] selects a decoder for tag 9 and for no other tag. *)
Lemma ParseMessage_switch_UDT_only {C : Codec} (t : MsgType) :
  (exists m, ParseMessage_switch t = Ok m) <-> t = MsgTypeUDT.
Proof.
  unfold ParseMessage_switch. split.
  - intros [m Hm]. destruct (t =? MsgTypeUDT) eqn:E.
    + apply Z.eqb_eq. exact E.
    + discriminate Hm.
  - intros ->. eexists. reflexivity.
Qed.

(** C6: on a buffer whose first byte is one of the tags 1..8 or 10..20
    [ParseMessage] fails with [UnsupportedTypeError] of that byte, and
    tag 9 is the only one the [switch] has a decoder for. *)
Theorem ParseMessage_unsupported {C : Codec} (b0 : byte) rest :
  1 <= Z_of_byte b0 <= 8 \/ 10 <= Z_of_byte b0 <= 20 ->
  ParseMessage (b0 :: rest) = Err (UnsupportedTypeError (Z_of_byte b0)) /\
  forall t : MsgType,
    (exists m, ParseMessage_switch t = Ok m) <-> t = MsgTypeUDT.
Proof.
  intros Htag. split; [|apply ParseMessage_switch_UDT_only].
  rewrite ParseMessage_cons. unfold ParseMessage_switch.
  destruct (Z_of_byte b0 =? MsgTypeUDT) eqn:E.
  - apply Z.eqb_eq in E. unfold MsgTypeUDT in E. lia.
  - reflexivity.
Qed.

Lemma ParseMessage_unsupported_witness :
  ParseMessage (C := codec) (bytes [17; 0; 3; 3; 3; 0; 0; 0]) =
    Err (UnsupportedTypeError 17) /\
  forall t : MsgType,
    (exists m, ParseMessage_switch (C := codec) t = Ok m) <-> t = MsgTypeUDT.
Proof.
  apply (ParseMessage_unsupported (C := codec)
           (byte_of_Z 17) (bytes [0; 3; 3; 3; 0; 0; 0])).
  right. vm_compute. split; discriminate.
Defined.

(** Any tag other than 9 is rejected, whatever follows it. *)
Lemma ParseMessage_not_UDT {C : Codec} (b0 : byte) rest :
  Z_of_byte b0 <> MsgTypeUDT ->
  ParseMessage (b0 :: rest) = Err (UnsupportedTypeError (Z_of_byte b0)).
Proof.
  intros Hne. rewrite ParseMessage_cons. unfold ParseMessage_switch.
  destruct (Z_of_byte b0 =? MsgTypeUDT) eqn:E.
  - apply Z.eqb_eq in E. contradiction.
  - reflexivity.
Qed.

(** C9: [ParseMessage] indexes [b[0]] unguarded: on the empty buffer
    that is an index-out-of-range panic, and on a non-empty buffer the
    result is either the UDT decoder's or [UnsupportedTypeError] of
    the first byte. *)
Theorem ParseMessage_first_byte {C : Codec} :
  ParseMessage [] = Panic IndexOutOfRange /\
  forall b0 rest,
    ParseMessage (b0 :: rest)
      = omap MessageUDT (UnmarshalBinary (b0 :: rest)) \/
    ParseMessage (b0 :: rest) = Err (UnsupportedTypeError (Z_of_byte b0)).
Proof.
  split; [reflexivity|].
  intros b0 rest. rewrite ParseMessage_cons. unfold ParseMessage_switch.
  destruct (Z_of_byte b0 =? MsgTypeUDT); [left | right]; reflexivity.
Qed.

End SccpSpec.

(* ===================================================================== *)
(** ** Slices of a buffer laid out as consecutive blocks *)
(* ===================================================================== *)

Module SliceFacts.

Section Blocks.

Context {A : Type}.
Implicit Types (pre post w src : list A) (x y : A) (lo hi i : Z).

Lemma len_nonneg w : 0 <= len w.
Proof. unfold len. lia. Qed.

Lemma len_app pre post : len (pre ++ post) = len pre + len post.
Proof. unfold len. rewrite length_app. lia. Qed.

Lemma len_cons x w : len (x :: w) = 1 + len w.
Proof. unfold len. cbn [length]. lia. Qed.

Lemma len_length w w' : length w = length w' -> len w = len w'.
Proof. unfold len. intros ->. reflexivity. Qed.

Lemma in_range_true i n : 0 <= i < n -> (0 <=? i) && (i <? n) = true.
Proof.
  intros [H0 H1]. apply andb_true_intro. split.
  - apply Z.leb_le. exact H0.
  - apply Z.ltb_lt. exact H1.
Qed.

Lemma index_middle pre x post i :
  len pre = i -> index (pre ++ x :: post) i = Ok x.
Proof.
  intros <-. unfold index.
  rewrite in_range_true.
  - rewrite (list_lookup_middle pre post x); [reflexivity|].
    unfold len. lia.
  - rewrite len_app, len_cons.
    pose proof (len_nonneg pre). pose proof (len_nonneg post). lia.
Qed.

Lemma store_middle pre x post i y :
  len pre = i -> store (pre ++ x :: post) i y = Ok (pre ++ y :: post).
Proof.
  intros <-. unfold store.
  rewrite in_range_true.
  - f_equal. unfold len. rewrite Nat2Z.id.
    rewrite insert_app_r_alt by lia.
    rewrite Nat.sub_diag. reflexivity.
  - rewrite len_app, len_cons.
    pose proof (len_nonneg pre). pose proof (len_nonneg post). lia.
Qed.

Lemma slice_middle pre w post lo hi :
  len pre = lo -> len w = hi - lo ->
  slice (pre ++ w ++ post) lo hi = Ok w.
Proof.
  intros Hpre Hw. unfold slice.
  pose proof (len_nonneg pre). pose proof (len_nonneg w).
  pose proof (len_nonneg post).
  assert (Hc : (0 <=? lo) && (lo <=? hi) && (hi <=? len (pre ++ w ++ post))
               = true).
  { rewrite !len_app.
    repeat (apply andb_true_intro; split); apply Z.leb_le; lia. }
  rewrite Hc. f_equal.
  rewrite drop_app_length' by (unfold len in *; lia).
  apply take_app_length'. unfold len in *. lia.
Qed.

Lemma slice_from_tail pre w lo :
  len pre = lo -> slice_from (pre ++ w) lo = Ok w.
Proof.
  intros Hpre. unfold slice_from.
  rewrite <- (app_nil_r w) at 1.
  apply slice_middle; [exact Hpre|].
  rewrite len_app. lia.
Qed.

Lemma write_back_middle pre w post lo w' :
  len pre = lo -> length w' = length w ->
  write_back (pre ++ w ++ post) lo w' = pre ++ w' ++ post.
Proof.
  intros Hpre Hw. unfold write_back.
  rewrite take_app_length' by (unfold len in *; lia).
  f_equal. f_equal.
  rewrite app_assoc.
  apply drop_app_length'. rewrite length_app. unfold len in *. lia.
Qed.

Lemma copy_at_tail pre w lo src :
  len pre = lo -> length src = length w ->
  copy_at (pre ++ w) lo src = pre ++ src.
Proof.
  intros Hpre Hw. unfold copy_at.
  rewrite take_ge by (rewrite length_app; unfold len in *; lia).
  rewrite <- (app_nil_r w).
  rewrite (write_back_middle pre w [] lo src Hpre Hw).
  rewrite app_nil_r. reflexivity.
Qed.

End Blocks.

End SliceFacts.

(* ===================================================================== *)
(** ** Properties of package sccp: the UDT frame *)
(* ===================================================================== *)

Module FramingSpec.

Import params sccp examples SliceFacts SccpSpec.

(** Decide the comparison guarding the next [if] from the context. *)
Ltac if_lia :=
  match goal with
  | |- context [if ?a <? ?b then _ else _] =>
      destruct (Z.ltb_spec a b); [try lia | try lia]
  | |- context [if ?a <=? ?b then _ else _] =>
      destruct (Z.leb_spec a b); [try lia | try lia]
  | |- context [if ?a >=? ?b then _ else _] =>
      rewrite (Z.geb_leb a b);
      destruct (Z.leb_spec b a); [try lia | try lia]
  end.

(** Perform the next [b[i] = y] on a buffer that starts with the
    explicit cells [pre] followed by the cell [x]. *)
Ltac store_at pre x :=
  match goal with
  | |- context [store ?b ?i ?y] =>
      let E := fresh "E" in
      pose proof (store_middle pre x _ i y eq_refl : store b i y = _) as E;
      cbn [app] in E; rewrite E; clear E; cbn [bind]
  end.

Lemma slice_prefix_of_tail {A} (pre rest : list A) lo n :
  len pre = lo -> 0 <= n <= len rest ->
  slice (pre ++ rest) lo (lo + n) = Ok (take (Z.to_nat n) rest).
Proof.
  intros Hpre Hn.
  rewrite <- (take_drop (Z.to_nat n) rest) at 1.
  apply slice_middle; [exact Hpre|].
  unfold len in *. rewrite length_take. lia.
Qed.

(** The decoder on a buffer laid out as header, two address blocks,
    data-length byte and trailing bytes, with in-range pointers. *)
Lemma UnmarshalBinary_blocks {C : Codec}
    (t pcb p1 p2 p3 dl : byte) (wA wB rest : list byte)
    pc cdpa cgpa (LA LB : Z) :
  ProtocolClass_Read (pcb :: p1 :: p2 :: p3 :: wA ++ wB ++ dl :: rest)
    = Ok (pc, 1) ->
  0 <= LA -> 0 <= LB -> LA + LB <= 247 ->
  Z_of_byte p1 = 3 ->
  Z_of_byte p2 = 3 + LA ->
  Z_of_byte p3 = 3 + LA + LB ->
  len wA = LA + 1 -> len wB = LB + 1 ->
  ParseCalledPartyAddress wA = Ok cdpa ->
  ParseCallingPartyAddress wB = Ok cgpa ->
  UnmarshalBinary (t :: pcb :: p1 :: p2 :: p3 :: wA ++ wB ++ dl :: rest)
  = if len rest <? Z_of_byte dl then Err ErrUnexpectedEOF
    else Ok {| Type_ := Z_of_byte t;
               ProtocolClass := Some pc;
               Ptr1 := 3;
               Ptr2 := 3 + LA;
               Ptr3 := 3 + LA + LB;
               CalledPartyAddress := Some cdpa;
               CallingPartyAddress := Some cgpa;
               DataLength := Z_of_byte dl;
               Data := take (Z.to_nat (Z_of_byte dl)) rest |}.
Proof.
  intros HRead HLA HLB Hsum Hp1 Hp2 Hp3 HwA HwB HA HB.
  pose proof (len_nonneg rest) as Hrest.
  pose proof (Z_of_byte_range dl) as Hdl.
  set (b := t :: pcb :: p1 :: p2 :: p3 :: wA ++ wB ++ dl :: rest).
  assert (Hl : len b = 8 + LA + LB + len rest).
  { subst b. rewrite !len_cons, !len_app, len_cons. lia. }
  assert (E0 : index b 0 = Ok t)
    by (apply (index_middle [] t _ 0); reflexivity).
  assert (E1 : slice_from b 1
               = Ok (pcb :: p1 :: p2 :: p3 :: wA ++ wB ++ dl :: rest))
    by (apply (slice_from_tail [t] _ 1); reflexivity).
  assert (E2 : index b (1 + 1) = Ok p1)
    by (apply (index_middle [t; pcb] p1 _ (1 + 1)); reflexivity).
  assert (E3 : index b (1 + 1 + 1) = Ok p2)
    by (apply (index_middle [t; pcb; p1] p2 _ (1 + 1 + 1)); reflexivity).
  assert (E4 : index b (1 + 1 + 2) = Ok p3)
    by (apply (index_middle [t; pcb; p1; p2] p3 _ (1 + 1 + 2)); reflexivity).
  assert (U2 : u8 (Z_of_byte p2 + 3) = 6 + LA)
    by (rewrite Hp2; rewrite u8_small; lia).
  assert (U3 : u8 (Z_of_byte p3 + 5) = 8 + LA + LB)
    by (rewrite Hp3; rewrite u8_small; lia).
  assert (U4 : u8 (Z_of_byte p3 + 4) = 7 + LA + LB)
    by (rewrite Hp3; rewrite u8_small; lia).
  assert (EA : slice b (1 + 1 + 3) (6 + LA) = Ok wA).
  { apply (slice_middle [t; pcb; p1; p2; p3] wA _ (1 + 1 + 3) (6 + LA));
      [reflexivity | lia]. }
  assert (EB : slice b (6 + LA) (7 + LA + LB) = Ok wB).
  { apply (slice_middle ([t; pcb; p1; p2; p3] ++ wA) wB (dl :: rest)).
    - rewrite len_app. change (len [t; pcb; p1; p2; p3]) with 5. lia.
    - lia. }
  assert (ED : index b (7 + LA + LB) = Ok dl).
  { subst b. rewrite (app_assoc wA wB).
    apply (index_middle ([t; pcb; p1; p2; p3] ++ wA ++ wB) dl rest).
    rewrite !len_app. change (len [t; pcb; p1; p2; p3]) with 5. lia. }
  assert (EP : Z_of_byte dl <= len rest ->
               slice b (8 + LA + LB) (8 + LA + LB + Z_of_byte dl)
               = Ok (take (Z.to_nat (Z_of_byte dl)) rest)).
  { intros Hfit.
    replace b with (([t; pcb; p1; p2; p3] ++ wA ++ wB ++ [dl]) ++ rest).
    - apply slice_prefix_of_tail; [|lia].
      rewrite !len_app. change (len [t; pcb; p1; p2; p3]) with 5.
      change (len [dl]) with 1. lia.
    - subst b. cbn [app]. rewrite <- !app_assoc. reflexivity. }
  match goal with |- _ = ?r => set (expected := r) end.
  unfold UnmarshalBinary. cbv zeta. fold b. rewrite Hl.
  if_lia.
  rewrite E0; cbn [bind]. rewrite E1; cbn [bind].
  rewrite HRead; cbn [bind].
  rewrite E2; cbn [bind]. rewrite Hp1. if_lia.
  rewrite E3; cbn [bind]. rewrite !U2. if_lia.
  rewrite E4; cbn [bind]. rewrite !U3, !U4. if_lia.
  rewrite EA; cbn [bind]. rewrite HA; cbn [bind].
  rewrite EB; cbn [bind]. rewrite HB; cbn [bind].
  rewrite ED; cbn [bind].
  rewrite Z.geb_leb. subst expected.
  destruct (Z.ltb_spec (len rest) (Z_of_byte dl)) as [Hshort|Hfit].
  - destruct (Z.leb_spec (8 + LA + LB + Z_of_byte dl)
                         (8 + LA + LB + len rest)); [lia|reflexivity].
  - destruct (Z.leb_spec (8 + LA + LB + Z_of_byte dl)
                         (8 + LA + LB + len rest)); [|lia].
    rewrite (EP Hfit); cbn [bind].
    rewrite Hp2, Hp3. reflexivity.
Qed.

(** The encoder on a struct with in-range pointers and a buffer laid
    out as five header cells, two address windows, one cell for the
    data length and a window for the data. *)
Lemma MarshalTo_blocks {C : Codec}
    ty pc cdpa cgpa (LA LB DL : Z) (data : list byte)
    (h0 h1 h2 h3 h4 d : byte) (wA wB wD wA' wB' : list byte) :
  0 <= LA -> 0 <= LB -> LA + LB <= 247 ->
  0 <= DL <= len data ->
  len wA = LA + 1 -> len wB = LB + 1 -> length wD = length data ->
  PartyAddress_MarshalTo cdpa wA = Ok wA' -> length wA' = length wA ->
  PartyAddress_MarshalTo cgpa wB = Ok wB' -> length wB' = length wB ->
  MarshalTo {| Type_ := ty;
               ProtocolClass := Some pc;
               Ptr1 := 3;
               Ptr2 := 3 + LA;
               Ptr3 := 3 + LA + LB;
               CalledPartyAddress := Some cdpa;
               CallingPartyAddress := Some cgpa;
               DataLength := DL;
               Data := data |}
            (h0 :: h1 :: h2 :: h3 :: h4 :: wA ++ wB ++ d :: wD)
  = Ok (byte_of_Z ty :: ProtocolClass_Value pc :: byte_of_Z 3
          :: byte_of_Z (3 + LA) :: byte_of_Z (3 + LA + LB)
          :: wA' ++ wB' ++ byte_of_Z DL :: data).
Proof.
  intros HLA HLB Hsum HDL HwA HwB HwD HA HA' HB HB'.
  pose proof (len_nonneg data) as Hdata.
  assert (HlD : len wD = len data) by (apply len_length; exact HwD).
  assert (HlA : len wA' = LA + 1)
    by (rewrite (len_length _ _ HA'); exact HwA).
  assert (HlB : len wB' = LB + 1)
    by (rewrite (len_length _ _ HB'); exact HwB).
  assert (U2 : u8 (3 + LA + 3) = 6 + LA) by (rewrite u8_small; lia).
  assert (U3 : u8 (3 + LA + LB + 5) = 8 + LA + LB)
    by (rewrite u8_small; lia).
  assert (U4 : u8 (3 + LA + LB + 4) = 7 + LA + LB)
    by (rewrite u8_small; lia).
  unfold MarshalTo. cbv zeta.
  cbn [Type_ ProtocolClass Ptr1 Ptr2 Ptr3 CalledPartyAddress
       CallingPartyAddress DataLength Data deref].
  rewrite !U2, !U3, !U4.
  assert (Hl : len (h0 :: h1 :: h2 :: h3 :: h4 :: wA ++ wB ++ d :: wD)
               = 8 + LA + LB + len data).
  { rewrite !len_cons, !len_app, len_cons. lia. }
  rewrite Hl.
  if_lia.
  store_at (@nil byte) h0.
  store_at [byte_of_Z ty] h1.
  store_at [byte_of_Z ty; ProtocolClass_Value pc] h2.
  if_lia.
  store_at [byte_of_Z ty; ProtocolClass_Value pc; byte_of_Z 3] h3.
  if_lia.
  store_at [byte_of_Z ty; ProtocolClass_Value pc; byte_of_Z 3;
            byte_of_Z (3 + LA)] h4.
  if_lia.
  set (hdr := [byte_of_Z ty; ProtocolClass_Value pc; byte_of_Z 3;
               byte_of_Z (3 + LA); byte_of_Z (3 + LA + LB)]).
  assert (Hhdr : len hdr = 5) by reflexivity.
  change (byte_of_Z ty :: ProtocolClass_Value pc :: byte_of_Z 3
            :: byte_of_Z (3 + LA) :: byte_of_Z (3 + LA + LB)
            :: wA ++ wB ++ d :: wD)
    with (hdr ++ wA ++ wB ++ d :: wD).
  rewrite (slice_middle hdr wA _ 5 (6 + LA)) by (assumption || lia).
  cbn [bind]. rewrite HA. cbn [bind].
  rewrite (write_back_middle hdr wA _ 5 wA') by assumption.
  rewrite (app_assoc hdr wA').
  rewrite (slice_middle (hdr ++ wA') wB _ (6 + LA) (7 + LA + LB))
    by (rewrite ?len_app; lia).
  cbn [bind]. rewrite HB. cbn [bind].
  rewrite (write_back_middle (hdr ++ wA') wB _ (6 + LA) wB')
    by (rewrite ?len_app; lia || assumption).
  rewrite (app_assoc (hdr ++ wA') wB').
  rewrite (store_middle ((hdr ++ wA') ++ wB') d wD (7 + LA + LB))
    by (rewrite ?len_app; lia).
  cbn [bind].
  change (byte_of_Z DL :: wD) with ([byte_of_Z DL] ++ wD).
  rewrite (app_assoc _ [byte_of_Z DL] wD).
  assert (Hpre : len (((hdr ++ wA') ++ wB') ++ [byte_of_Z DL])
                 = 8 + LA + LB).
  { rewrite !len_app. change (len [byte_of_Z DL]) with 1. lia. }
  rewrite (slice_from_tail _ wD (8 + LA + LB) Hpre). cbn [bind].
  if_lia.
  rewrite (copy_at_tail _ wD (8 + LA + LB) data Hpre)
    by (symmetry; exact HwD).
  subst hdr. rewrite <- !app_assoc. reflexivity.
Qed.

Lemma NewUDT_in_range {C : Codec} pcls retOnErr cdpa cgpa data :
  0 <= PartyAddress_Length cdpa ->
  0 <= PartyAddress_Length cgpa ->
  PartyAddress_Length cdpa + PartyAddress_Length cgpa <= 252 ->
  len data <= 255 ->
  NewUDT pcls retOnErr cdpa cgpa data
  = {| Type_ := MsgTypeUDT;
       ProtocolClass := Some (NewProtocolClass pcls retOnErr);
       Ptr1 := 3;
       Ptr2 := 3 + PartyAddress_Length cdpa;
       Ptr3 := 3 + PartyAddress_Length cdpa + PartyAddress_Length cgpa;
       CalledPartyAddress := Some cdpa;
       CallingPartyAddress := Some cgpa;
       DataLength := len data;
       Data := data |}.
Proof.
  intros HA HB Hsum Hdata.
  pose proof (len_nonneg data) as Hd.
  unfold NewUDT, SetLength, set_DataLength, set_Ptr3, set_Ptr2.
  cbn [Type_ ProtocolClass Ptr1 Ptr2 Ptr3 CalledPartyAddress
       CallingPartyAddress DataLength Data].
  rewrite (u8_add_u8_r 3 (PartyAddress_Length cdpa)).
  rewrite (u8_small (3 + PartyAddress_Length cdpa)) by lia.
  rewrite u8_add_u8_r.
  rewrite (u8_small (3 + PartyAddress_Length cdpa
                     + PartyAddress_Length cgpa)) by lia.
  rewrite (u8_small (len data)) by lia.
  reflexivity.
Qed.

Lemma replicate_blocks (a b d : nat) :
  replicate (5 + (a + (b + (1 + d)))) x00
  = x00 :: x00 :: x00 :: x00 :: x00
      :: replicate a x00 ++ replicate b x00 ++ x00 :: replicate d x00.
Proof. rewrite !replicate_add. reflexivity. Qed.

(** The frame [MarshalBinary] produces for a constructed UDT whose
    pointers and data length fit their byte: header, the two address
    blocks as the party address codec writes them, data length, data. *)
Lemma MarshalBinary_constructed {C : Codec} {K : Contract C}
    pcls retOnErr cdpa cgpa data :
  PartyAddress_Length cdpa + PartyAddress_Length cgpa <= 247 ->
  len data <= 255 ->
  exists wA wB,
    MarshalBinary (NewUDT pcls retOnErr cdpa cgpa data)
    = Ok (byte_of_Z MsgTypeUDT
            :: ProtocolClass_Value (NewProtocolClass pcls retOnErr)
            :: byte_of_Z 3
            :: byte_of_Z (3 + PartyAddress_Length cdpa)
            :: byte_of_Z (3 + PartyAddress_Length cdpa
                          + PartyAddress_Length cgpa)
            :: wA ++ wB ++ byte_of_Z (len data) :: data) /\
    len wA = PartyAddress_Length cdpa + 1 /\
    len wB = PartyAddress_Length cgpa + 1 /\
    ParseCalledPartyAddress wA = Ok cdpa /\
    ParseCallingPartyAddress wB = Ok cgpa.
Proof.
  intros Hsum Hdata.
  pose proof (Length_nonneg cdpa) as HLA.
  pose proof (Length_nonneg cgpa) as HLB.
  pose proof (len_nonneg data) as Hd.
  rewrite (NewUDT_in_range pcls retOnErr cdpa cgpa data) by lia.
  set (LA := PartyAddress_Length cdpa) in *.
  set (LB := PartyAddress_Length cgpa) in *.
  set (zA := replicate (Z.to_nat (LA + 1)) x00).
  set (zB := replicate (Z.to_nat (LB + 1)) x00).
  assert (HzA : len zA = LA + 1)
    by (unfold len, zA; rewrite length_replicate; lia).
  assert (HzB : len zB = LB + 1)
    by (unfold len, zB; rewrite length_replicate; lia).
  destruct (MarshalTo_Parse cdpa zA) as (wA & HA & HA' & PA & _).
  { fold LA. lia. }
  { rewrite MarshalLen_Length. exact HzA. }
  destruct (MarshalTo_Parse cgpa zB) as (wB & HB & HB' & _ & PB).
  { fold LB. lia. }
  { rewrite MarshalLen_Length. exact HzB. }
  exists wA, wB.
  split; [|split; [|split; [|split]]].
  - unfold MarshalBinary, MarshalLen.
    cbn [CalledPartyAddress CallingPartyAddress Data].
    rewrite !MarshalLen_Length. fold LA LB. unfold make.
    destruct (Z.ltb_spec (6 + (LA + 1) + (LB + 1) + len data) 0); [lia|].
    cbn [bind].
    replace (Z.to_nat (6 + (LA + 1) + (LB + 1) + len data))
      with (5 + (Z.to_nat (LA + 1)
                 + (Z.to_nat (LB + 1) + (1 + length data))))%nat
      by (unfold len; lia).
    rewrite replicate_blocks. fold zA zB.
    apply (MarshalTo_blocks MsgTypeUDT _ cdpa cgpa LA LB (len data) data
             x00 x00 x00 x00 x00 x00 zA zB (replicate (length data) x00)
             wA wB); try assumption; try lia.
    apply length_replicate.
  - rewrite (len_length _ _ HA'). exact HzA.
  - rewrite (len_length _ _ HB'). exact HzB.
  - exact PA.
  - exact PB.
Qed.

(** C1 (as amended): under the collaborator contracts, for two party
    addresses whose lengths sum to at most 247 and a payload of at most
    255 bytes, [MarshalBinary] of the UDT built by [NewUDT] succeeds
    with exactly [MarshalLen] bytes and [ParseUDT] of these bytes is
    the same UDT, field for field. *)
Theorem UDT_roundtrip {C : Codec} {K : Contract C}
    pcls retOnErr cdpa cgpa data :
  PartyAddress_Length cdpa + PartyAddress_Length cgpa <= 247 ->
  len data <= 255 ->
  exists b,
    MarshalBinary (NewUDT pcls retOnErr cdpa cgpa data) = Ok b /\
    len b = MarshalLen (NewUDT pcls retOnErr cdpa cgpa data) /\
    ParseUDT b = Ok (NewUDT pcls retOnErr cdpa cgpa data).
Proof.
  intros Hsum Hdata.
  pose proof (Length_nonneg cdpa) as HLA.
  pose proof (Length_nonneg cgpa) as HLB.
  pose proof (len_nonneg data) as Hd.
  destruct (MarshalBinary_constructed pcls retOnErr cdpa cgpa data Hsum Hdata)
    as (wA & wB & Hb & HwA & HwB & PA & PB).
  eexists. split; [exact Hb|]. split.
  - unfold MarshalLen, NewUDT, SetLength, set_DataLength, set_Ptr3, set_Ptr2.
    cbn [CalledPartyAddress CallingPartyAddress Data].
    rewrite !MarshalLen_Length, !len_cons, !len_app, len_cons. lia.
  - unfold ParseUDT.
    rewrite (UnmarshalBinary_blocks _ _ _ _ _ _ wA wB data
               (NewProtocolClass pcls retOnErr) cdpa cgpa
               (PartyAddress_Length cdpa) (PartyAddress_Length cgpa));
      try assumption; try lia.
    + rewrite (Z_of_byte_of_Z_small (len data)) by lia.
      destruct (Z.ltb_spec (len data) (len data)); [lia|].
      rewrite take_ge by (unfold len; lia).
      rewrite (NewUDT_in_range pcls retOnErr cdpa cgpa data) by lia.
      reflexivity.
    + apply Read_Value.
    + reflexivity.
    + apply Z_of_byte_of_Z_small. lia.
    + apply Z_of_byte_of_Z_small. lia.
Qed.

(** The opaque codec meets the collaborator contracts. *)
Lemma Opaque_contract : Contract codec.
Proof.
  split.
  - reflexivity.
  - intros a. apply len_nonneg.
  - reflexivity.
  - intros a w Hfit Hw.
    change (PartyAddress_Length a) with (len a) in Hfit.
    change (PartyAddress_MarshalLen a) with (len a + 1) in Hw.
    pose proof (len_nonneg a) as Ha.
    assert (Hdrop : drop (S (length a)) w = []).
    { apply drop_ge. unfold len in Hw. lia. }
    assert (Hparse : Opaque.Parse (byte_of_Z (len a) :: a ++ []) = Ok a).
    { unfold Opaque.Parse.
      rewrite (Z_of_byte_of_Z_small (len a)) by lia.
      rewrite app_nil_r.
      destruct (Z.ltb_spec (len a) (len a)); [lia|].
      rewrite take_ge by (unfold len; lia). reflexivity. }
    exists (byte_of_Z (len a) :: a ++ []). repeat split.
    + cbn. unfold Opaque.MarshalTo, Opaque.MarshalLen.
      destruct (Z.ltb_spec (len w) (len a + 1)); [lia|].
      rewrite Hdrop. reflexivity.
    + cbn [length]. rewrite app_nil_r. unfold len in Hw. lia.
    + exact Hparse.
    + exact Hparse.
Qed.

Lemma UDT_roundtrip_witness :
  exists b,
    MarshalBinary scenario = Ok b /\
    len b = MarshalLen scenario /\
    ParseUDT b = Ok scenario.
Proof.
  apply (UDT_roundtrip (C := codec) (K := Opaque_contract)
           0 false [] [] (bytes [222; 173]));
    vm_compute; discriminate.
Defined.

(** C1 as stated fails for a payload of 256 bytes: the encoder succeeds,
    the data-length byte it writes is 0, and the decoder returns a UDT
    without payload. *)
Lemma UDT_roundtrip_loses_long_payload :
  exists b u,
    MarshalBinary oversized = Ok b /\
    ParseUDT b = Ok u /\
    Data oversized = payload_256 /\
    Data u = [] /\
    u <> oversized.
Proof.
  eexists. eexists.
  split; [vm_compute; reflexivity|].
  split; [vm_compute; reflexivity|].
  split; [reflexivity|].
  split; [reflexivity|].
  intros E. apply (f_equal Data) in E. vm_compute in E. discriminate E.
Qed.

(** A buffer of fewer than six bytes is rejected as truncated. *)
Lemma UnmarshalBinary_short {C : Codec} (b : list byte) :
  len b < 6 -> UnmarshalBinary b = Err ErrUnexpectedEOF.
Proof.
  intros Hshort. unfold UnmarshalBinary. cbv zeta.
  destruct (Z.leb_spec (len b) 5); [reflexivity|lia].
Qed.

(** Once the header, the pointers and both addresses have been
    accepted, a data-length byte larger than the number of bytes that
    follow it is rejected as truncated. *)
Lemma UnmarshalBinary_data_truncated {C : Codec}
    (t pcb p1 p2 p3 dl : byte) (wA wB rest : list byte)
    pc cdpa cgpa (LA LB : Z) :
  ProtocolClass_Read (pcb :: p1 :: p2 :: p3 :: wA ++ wB ++ dl :: rest)
    = Ok (pc, 1) ->
  0 <= LA -> 0 <= LB -> LA + LB <= 247 ->
  Z_of_byte p1 = 3 ->
  Z_of_byte p2 = 3 + LA ->
  Z_of_byte p3 = 3 + LA + LB ->
  len wA = LA + 1 -> len wB = LB + 1 ->
  ParseCalledPartyAddress wA = Ok cdpa ->
  ParseCallingPartyAddress wB = Ok cgpa ->
  len rest < Z_of_byte dl ->
  UnmarshalBinary (t :: pcb :: p1 :: p2 :: p3 :: wA ++ wB ++ dl :: rest)
  = Err ErrUnexpectedEOF.
Proof.
  intros HRead HLA HLB Hsum Hp1 Hp2 Hp3 HwA HwB HA HB Hshort.
  rewrite (UnmarshalBinary_blocks t pcb p1 p2 p3 dl wA wB rest
             pc cdpa cgpa LA LB); try assumption.
  destruct (Z.ltb_spec (len rest) (Z_of_byte dl)); [reflexivity|lia].
Qed.

(** C2: the frame [09 00 03 FD 03 00 00 00] has 8 bytes and a second
    pointer of 253, so [Ptr2+3] is 256; the decoder computes it in
    [uint8] as 0, passes the length check and panics on [b[5:0]]
    instead of returning [io.ErrUnexpectedEOF]. *)
Theorem UnmarshalBinary_ptr2_wraps {C : Codec} pc :
  ProtocolClass_Read (bytes [0; 3; 253; 3; 0; 0; 0]) = Ok (pc, 1) ->
  len frame_ptr2_253 = 8 /\
  omap Z_of_byte (index frame_ptr2_253 3) = Ok 253 /\
  len frame_ptr2_253 < 253 + 3 /\
  UnmarshalBinary frame_ptr2_253 = Panic SliceBoundsOutOfRange.
Proof.
  intros HRead.
  split; [reflexivity|]. split; [reflexivity|]. split; [reflexivity|].
  unfold UnmarshalBinary. cbv zeta.
  change (len frame_ptr2_253 <=? 5) with false. cbv iota.
  change (index frame_ptr2_253 0) with (Ok (byte_of_Z 9)). cbn [bind].
  change (slice_from frame_ptr2_253 1)
    with (Ok (bytes [0; 3; 253; 3; 0; 0; 0])).
  cbn [bind]. rewrite HRead. cbn [bind].
  vm_compute. reflexivity.
Qed.

Lemma UnmarshalBinary_ptr2_wraps_witness :
  len frame_ptr2_253 = 8 /\
  omap Z_of_byte (index frame_ptr2_253 3) = Ok 253 /\
  len frame_ptr2_253 < 253 + 3 /\
  UnmarshalBinary (C := codec) frame_ptr2_253 = Panic SliceBoundsOutOfRange.
Proof.
  apply (UnmarshalBinary_ptr2_wraps (C := codec) (byte_of_Z 0)).
  reflexivity.
Defined.

(** With the opaque codec: the frame [frame_ptr3_251] has 256 bytes, a
    third pointer of 251 and hence its data-length byte last, at index
    255, declaring 5 bytes of data of which none follow.  The decoder
    computes [Ptr3+5] in [uint8] as 0 and returns [nil] with the first
    five bytes of the frame as [Data]. *)
Lemma UnmarshalBinary_ptr3_wraps :
  len frame_ptr3_251 = 256 /\
  omap Z_of_byte (index frame_ptr3_251 4) = Ok 251 /\
  omap Z_of_byte (index frame_ptr3_251 (251 + 4)) = Ok 5 /\
  len frame_ptr3_251 - (251 + 5) < 5 /\
  exists u,
    UnmarshalBinary (C := codec) frame_ptr3_251 = Ok u /\
    DataLength u = 5 /\
    Data u = bytes [9; 0; 3; 3; 251].
Proof.
  split; [reflexivity|]. split; [reflexivity|]. split; [reflexivity|].
  split; [reflexivity|].
  eexists. split; [vm_compute; reflexivity|].
  split; reflexivity.
Qed.

(** With the opaque codec the frame of the scenario is
    [09 00 03 03 03 00 00 02 DE AD]. *)
Lemma scenario_opaque_frame :
  MarshalBinary scenario = Ok scenario_wire /\
  scenario_wire = bytes [9; 0; 3; 3; 3; 0; 0; 2; 222; 173] /\
  MarshalLen scenario = 10 /\
  ParseUDT scenario_wire = Ok scenario.
Proof.
  repeat split; vm_compute; reflexivity.
Qed.

(** C4 (as amended): with any codec of package params that meets the
    collaborator contracts and encodes protocol class 0 without
    return-on-error as the byte 00, for two party addresses whose
    [Length()] is 0 and the payload [DE AD], [MarshalBinary] gives the
    ten bytes [09 00 03 03 03 a c 02 DE AD], where [a] and [c] are the
    one-byte blocks the party address codec writes and reads back,
    [MarshalLen] is 10 and [ParseUDT] of these bytes is the UDT
    again. *)
Theorem scenario_encoding {C : Codec} {K : Contract C} cdpa cgpa :
  PartyAddress_Length cdpa = 0 ->
  PartyAddress_Length cgpa = 0 ->
  ProtocolClass_Value (NewProtocolClass 0 false) = byte_of_Z 0 ->
  exists a c,
    MarshalBinary (NewUDT 0 false cdpa cgpa (bytes [222; 173]))
    = Ok (bytes [9; 0; 3; 3; 3] ++ a :: c :: bytes [2; 222; 173]) /\
    ParseCalledPartyAddress [a] = Ok cdpa /\
    ParseCallingPartyAddress [c] = Ok cgpa /\
    MarshalLen (NewUDT 0 false cdpa cgpa (bytes [222; 173])) = 10 /\
    ParseUDT (bytes [9; 0; 3; 3; 3] ++ a :: c :: bytes [2; 222; 173])
    = Ok (NewUDT 0 false cdpa cgpa (bytes [222; 173])).
Proof.
  intros HA HB Hpc.
  destruct (MarshalBinary_constructed 0 false cdpa cgpa (bytes [222; 173]))
    as (wA & wB & Hb & HwA & HwB & PA & PB).
  { lia. }
  { vm_compute. discriminate. }
  rewrite HA in HwA. rewrite HB in HwB.
  destruct wA as [|a [|a' wA]]; try discriminate HwA.
  2:{ exfalso. rewrite !len_cons in HwA. pose proof (len_nonneg wA). lia. }
  destruct wB as [|c [|c' wB]]; try discriminate HwB.
  2:{ exfalso. rewrite !len_cons in HwB. pose proof (len_nonneg wB). lia. }
  rewrite HA, HB, Hpc in Hb.
  exists a, c.
  split; [exact Hb|]. split; [exact PA|]. split; [exact PB|]. split.
  - unfold MarshalLen, NewUDT, SetLength, set_DataLength, set_Ptr3, set_Ptr2.
    cbn [CalledPartyAddress CallingPartyAddress Data].
    rewrite !MarshalLen_Length, HA, HB. reflexivity.
  - unfold ParseUDT.
    change (bytes [9; 0; 3; 3; 3] ++ a :: c :: bytes [2; 222; 173])
      with (byte_of_Z 9 :: byte_of_Z 0 :: byte_of_Z 3 :: byte_of_Z 3
              :: byte_of_Z 3 :: [a] ++ [c] ++ byte_of_Z 2 :: bytes [222; 173]).
    rewrite (UnmarshalBinary_blocks _ _ _ _ _ _ [a] [c] (bytes [222; 173])
               (NewProtocolClass 0 false) cdpa cgpa 0 0);
      try assumption; try reflexivity; try lia.
    + change (len (bytes [222; 173]) <? Z_of_byte (byte_of_Z 2)) with false.
      cbv iota.
      rewrite (NewUDT_in_range 0 false cdpa cgpa (bytes [222; 173]));
        [|lia|lia|lia|vm_compute; discriminate].
      rewrite HA, HB. reflexivity.
    + rewrite <- Hpc. apply Read_Value.
Qed.

Lemma scenario_encoding_witness :
  exists a c,
    MarshalBinary scenario
    = Ok (bytes [9; 0; 3; 3; 3] ++ a :: c :: bytes [2; 222; 173]) /\
    ParseCalledPartyAddress (Codec := codec) [a] = Ok [] /\
    ParseCallingPartyAddress (Codec := codec) [c] = Ok [] /\
    MarshalLen scenario = 10 /\
    ParseUDT (bytes [9; 0; 3; 3; 3] ++ a :: c :: bytes [2; 222; 173])
    = Ok scenario.
Proof.
  apply (scenario_encoding (C := codec) (K := Opaque_contract) [] []);
    reflexivity.
Defined.

(** Whatever the party address codec, as long as it meets the
    contracts: with two addresses of length 0 and a two-byte payload
    the encoding has ten bytes. *)
Lemma empty_addresses_ten_bytes {C : Codec} {K : Contract C}
    pcls retOnErr cdpa cgpa (x y : byte) :
  PartyAddress_Length cdpa = 0 ->
  PartyAddress_Length cgpa = 0 ->
  exists b,
    MarshalBinary (NewUDT pcls retOnErr cdpa cgpa [x; y]) = Ok b /\
    len b = 10.
Proof.
  intros HA HB.
  destruct (MarshalBinary_constructed pcls retOnErr cdpa cgpa [x; y])
    as (wA & wB & Hb & HwA & HwB & _).
  { lia. }
  { vm_compute. discriminate. }
  eexists. split; [exact Hb|].
  rewrite !len_cons, !len_app, !len_cons, HwA, HwB, HA, HB. reflexivity.
Qed.

Lemma slice_from_Ok {A} (b rest : list A) lo :
  slice_from b lo = Ok rest -> 0 <= lo <= len b /\ len rest = len b - lo.
Proof.
  unfold slice_from, slice. intros H.
  destruct ((0 <=? lo) && (lo <=? len b) && (len b <=? len b)) eqn:E;
    [|discriminate H].
  apply andb_prop in E as [E _]. apply andb_prop in E as [E0 E1].
  apply Z.leb_le in E0, E1. injection H as <-.
  split; [lia|]. unfold len in *.
  rewrite length_take, length_drop. lia.
Qed.

Lemma copy_at_len {A} (b src : list A) lo :
  0 <= lo <= len b -> len (copy_at b lo src) = len b.
Proof.
  intros Hlo. unfold copy_at, write_back, len in *.
  rewrite !length_app, length_take, length_drop, length_take. lia.
Qed.

(** Whatever package params does: a frame that [MarshalTo] accepts
    reaches at least to the end of the data declared behind the third
    pointer. *)
Lemma MarshalTo_Ok_len {C : Codec} (u : UDT C) b b' :
  MarshalTo u b = Ok b' ->
  0 <= DataLength u ->
  u8 (Ptr3 u + 5) + DataLength u <= len b'.
Proof.
  unfold MarshalTo. cbv zeta. intros H HDL.
  repeat match type of H with
         | (if ?c then _ else _) = _ =>
             destruct c eqn:?; try discriminate H
         | bind ?m _ = _ =>
             destruct m eqn:?; cbn [bind] in H; try discriminate H
         end.
  injection H as <-.
  match goal with
  | E : slice_from _ _ = Ok _ |- _ =>
      apply slice_from_Ok in E; destruct E as [Hoff Hrest]
  end.
  rewrite copy_at_len by exact Hoff.
  match goal with
  | E : (_ >=? _) = true |- _ => rewrite Z.geb_leb in E; apply Z.leb_le in E
  end.
  lia.
Qed.

(** Hence no party address codec makes the scenario of two addresses of
    length 0 and a two-byte payload encode to fewer than ten bytes. *)
Lemma empty_addresses_at_least_ten_bytes {C : Codec}
    pcls retOnErr cdpa cgpa (x y : byte) b :
  PartyAddress_Length cdpa = 0 ->
  PartyAddress_Length cgpa = 0 ->
  MarshalBinary (NewUDT pcls retOnErr cdpa cgpa [x; y]) = Ok b ->
  10 <= len b.
Proof.
  intros HA HB H. unfold MarshalBinary in H.
  destruct (make _) as [b0| |]; cbn [bind] in H; try discriminate H.
  apply MarshalTo_Ok_len in H.
  - unfold NewUDT, SetLength, set_DataLength, set_Ptr3, set_Ptr2 in H.
    cbn [Ptr1 Ptr2 Ptr3 DataLength Data] in H.
    rewrite HA, HB in H. exact H.
  - unfold NewUDT, SetLength, set_DataLength. cbn [DataLength].
    apply u8_range.
Qed.

(** C4 as stated fails: with the opaque codec the encoding is not the
    eight bytes [09 00 03 03 03 02 DE AD], [MarshalLen] is not 8, and
    these eight bytes do not decode to the UDT; and whatever package
    params does, [MarshalBinary] never returns these eight bytes for two
    addresses of length 0 and the payload [DE AD]. *)
Lemma scenario_not_eight_bytes :
  (MarshalBinary scenario <> Ok scenario_eight /\
   MarshalLen scenario <> 8 /\
   ParseUDT scenario_eight <> Ok scenario) /\
  (forall (C : Codec) (cdpa cgpa : PartyAddress) (b : list byte),
     PartyAddress_Length cdpa = 0 ->
     PartyAddress_Length cgpa = 0 ->
     MarshalBinary (NewUDT 0 false cdpa cgpa (bytes [222; 173])) = Ok b ->
     b <> scenario_eight).
Proof.
  split.
  - repeat split; vm_compute; discriminate.
  - intros C cdpa cgpa b HA HB Hb ->.
    pose proof (empty_addresses_at_least_ten_bytes
                  0 false cdpa cgpa (byte_of_Z 222) (byte_of_Z 173)
                  scenario_eight HA HB Hb) as Hlen.
    vm_compute in Hlen. apply Hlen. reflexivity.
Qed.

(** The bound 247 is tight: when the address lengths sum to 248,
    [Ptr3+5] wraps to 0, [MarshalTo] copies the payload over the first
    bytes of the frame, and the frame decodes to another message. *)
Lemma MarshalBinary_address_sum_248 :
  PartyAddress_Length (Codec := codec) address_248
    + PartyAddress_Length (Codec := codec) [] = 248 /\
  exists b u,
    MarshalBinary address_sum_248 = Ok b /\
    take 2 b = bytes [222; 173] /\
    ParseUDT b = Ok u /\
    Type_ u = 222 /\
    u <> address_sum_248.
Proof.
  split; [reflexivity|].
  eexists. eexists.
  split; [vm_compute; reflexivity|].
  split; [reflexivity|].
  split; [vm_compute; reflexivity|].
  split; [reflexivity|].
  intros E. apply (f_equal Type_) in E. vm_compute in E. discriminate E.
Qed.

(** Where the pointer sums do not wrap, the length checks that follow
    the second and the third pointer reject a buffer that is too
    short. *)
Lemma UnmarshalBinary_pointer_checked {C : Codec}
    (t pcb p1 p2 p3 : byte) (rest : list byte) pc :
  ProtocolClass_Read (pcb :: p1 :: p2 :: p3 :: rest) = Ok (pc, 1) ->
  (Z_of_byte p2 + 3 <= 255 /\
   len (t :: pcb :: p1 :: p2 :: p3 :: rest) < Z_of_byte p2 + 3) \/
  (Z_of_byte p3 + 5 <= 255 /\
   len (t :: pcb :: p1 :: p2 :: p3 :: rest) < Z_of_byte p3 + 5) ->
  UnmarshalBinary (t :: pcb :: p1 :: p2 :: p3 :: rest)
  = Err ErrUnexpectedEOF.
Proof.
  intros HRead Hshort.
  pose proof (Z_of_byte_range p2) as R2.
  pose proof (Z_of_byte_range p3) as R3.
  set (b := t :: pcb :: p1 :: p2 :: p3 :: rest) in *.
  assert (E0 : index b 0 = Ok t)
    by (apply (index_middle [] t _ 0); reflexivity).
  assert (E1 : slice_from b 1 = Ok (pcb :: p1 :: p2 :: p3 :: rest))
    by (apply (slice_from_tail [t] _ 1); reflexivity).
  assert (E2 : index b (1 + 1) = Ok p1)
    by (apply (index_middle [t; pcb] p1 _ (1 + 1)); reflexivity).
  assert (E3 : index b (1 + 1 + 1) = Ok p2)
    by (apply (index_middle [t; pcb; p1] p2 _ (1 + 1 + 1)); reflexivity).
  assert (E4 : index b (1 + 1 + 2) = Ok p3)
    by (apply (index_middle [t; pcb; p1; p2] p3 _ (1 + 1 + 2)); reflexivity).
  unfold UnmarshalBinary. cbv zeta. fold b.
  destruct (Z.leb_spec (len b) 5); [reflexivity|].
  rewrite E0; cbn [bind]. rewrite E1; cbn [bind].
  rewrite HRead; cbn [bind]. rewrite E2; cbn [bind].
  destruct (Z.ltb_spec (len b) (Z_of_byte p1)); [reflexivity|].
  rewrite E3; cbn [bind].
  destruct (Z.ltb_spec (len b) (u8 (Z_of_byte p2 + 3))) as [|H2];
    [reflexivity|].
  rewrite E4; cbn [bind].
  destruct (Z.ltb_spec (len b) (u8 (Z_of_byte p3 + 5))) as [|H3];
    [reflexivity|].
  exfalso. destruct Hshort as [[Hfit Hlt]|[Hfit Hlt]].
  - rewrite u8_small in H2 by lia. lia.
  - rewrite u8_small in H3 by lia. lia.
Qed.

(** With any codec: a 256-byte frame whose third pointer is 251 and
    whose two address windows parse is accepted, and its [Data] are the
    first bytes of the frame itself, although no byte follows the
    data-length byte. *)
Lemma UnmarshalBinary_ptr3_251 {C : Codec}
    (t pcb p1 p2 p3 dl : byte) (wA wB : list byte) pc cdpa cgpa (LA : Z) :
  ProtocolClass_Read (pcb :: p1 :: p2 :: p3 :: wA ++ wB ++ [dl])
    = Ok (pc, 1) ->
  0 <= LA <= 248 ->
  Z_of_byte p2 = 3 + LA ->
  Z_of_byte p3 = 251 ->
  len wA = LA + 1 -> len wB = 249 - LA ->
  ParseCalledPartyAddress wA = Ok cdpa ->
  ParseCallingPartyAddress wB = Ok cgpa ->
  len (t :: pcb :: p1 :: p2 :: p3 :: wA ++ wB ++ [dl]) = 256 /\
  UnmarshalBinary (t :: pcb :: p1 :: p2 :: p3 :: wA ++ wB ++ [dl])
  = Ok {| Type_ := Z_of_byte t;
          ProtocolClass := Some pc;
          Ptr1 := Z_of_byte p1;
          Ptr2 := 3 + LA;
          Ptr3 := 251;
          CalledPartyAddress := Some cdpa;
          CallingPartyAddress := Some cgpa;
          DataLength := Z_of_byte dl;
          Data := take (Z.to_nat (Z_of_byte dl))
                    (t :: pcb :: p1 :: p2 :: p3 :: wA ++ wB ++ [dl]) |}.
Proof.
  intros HRead HLA Hp2 Hp3 HwA HwB HA HB.
  pose proof (Z_of_byte_range p1) as R1.
  pose proof (Z_of_byte_range dl) as Rd.
  set (b := t :: pcb :: p1 :: p2 :: p3 :: wA ++ wB ++ [dl]).
  assert (Hl : len b = 256).
  { subst b. rewrite !len_cons, !len_app. change (len [dl]) with 1. lia. }
  split; [exact Hl|].
  assert (E0 : index b 0 = Ok t)
    by (apply (index_middle [] t _ 0); reflexivity).
  assert (E1 : slice_from b 1 = Ok (pcb :: p1 :: p2 :: p3 :: wA ++ wB ++ [dl]))
    by (apply (slice_from_tail [t] _ 1); reflexivity).
  assert (E2 : index b (1 + 1) = Ok p1)
    by (apply (index_middle [t; pcb] p1 _ (1 + 1)); reflexivity).
  assert (E3 : index b (1 + 1 + 1) = Ok p2)
    by (apply (index_middle [t; pcb; p1] p2 _ (1 + 1 + 1)); reflexivity).
  assert (E4 : index b (1 + 1 + 2) = Ok p3)
    by (apply (index_middle [t; pcb; p1; p2] p3 _ (1 + 1 + 2)); reflexivity).
  assert (U2 : u8 (Z_of_byte p2 + 3) = 6 + LA)
    by (rewrite Hp2; rewrite u8_small; lia).
  assert (U3 : u8 (Z_of_byte p3 + 5) = 0) by (rewrite Hp3; reflexivity).
  assert (U4 : u8 (Z_of_byte p3 + 4) = 255) by (rewrite Hp3; reflexivity).
  assert (EA : slice b (1 + 1 + 3) (6 + LA) = Ok wA).
  { apply (slice_middle [t; pcb; p1; p2; p3] wA _ (1 + 1 + 3) (6 + LA));
      [reflexivity | lia]. }
  assert (EB : slice b (6 + LA) 255 = Ok wB).
  { apply (slice_middle ([t; pcb; p1; p2; p3] ++ wA) wB [dl]).
    - rewrite len_app. change (len [t; pcb; p1; p2; p3]) with 5. lia.
    - lia. }
  assert (ED : index b 255 = Ok dl).
  { subst b. rewrite (app_assoc wA wB).
    apply (index_middle ([t; pcb; p1; p2; p3] ++ wA ++ wB) dl []).
    rewrite !len_app. change (len [t; pcb; p1; p2; p3]) with 5. lia. }
  assert (EP : slice b 0 (0 + Z_of_byte dl)
               = Ok (take (Z.to_nat (Z_of_byte dl)) b)).
  { apply (slice_prefix_of_tail [] b 0 (Z_of_byte dl)); [reflexivity|lia]. }
  unfold UnmarshalBinary. cbv zeta. fold b. rewrite Hl.
  change (256 <=? 5) with false. cbv iota.
  rewrite E0; cbn [bind]. rewrite E1; cbn [bind].
  rewrite HRead; cbn [bind].
  rewrite E2; cbn [bind].
  destruct (Z.ltb_spec 256 (Z_of_byte p1)); [lia|].
  rewrite E3; cbn [bind]. rewrite !U2.
  destruct (Z.ltb_spec 256 (6 + LA)); [lia|].
  rewrite E4; cbn [bind]. rewrite !U3, !U4.
  change (256 <? 0) with false. cbv iota.
  rewrite EA; cbn [bind]. rewrite HA; cbn [bind].
  rewrite EB; cbn [bind]. rewrite HB; cbn [bind].
  rewrite ED; cbn [bind].
  rewrite Z.geb_leb.
  destruct (Z.leb_spec (0 + Z_of_byte dl) 256); [|lia].
  rewrite EP; cbn [bind].
  rewrite Hp2, Hp3. reflexivity.
Qed.

(** With any codec that meets the collaborator contracts, such a frame
    exists for every two addresses whose lengths sum to 248. *)
Lemma UnmarshalBinary_ptr3_251_contract {C : Codec} {K : Contract C}
    cdpa cgpa (t p1 dl : byte) pc :
  PartyAddress_Length cdpa + PartyAddress_Length cgpa = 248 ->
  exists wA wB,
    let b := t :: ProtocolClass_Value pc :: p1
               :: byte_of_Z (3 + PartyAddress_Length cdpa)
               :: byte_of_Z 251 :: wA ++ wB ++ [dl] in
    len b = 256 /\
    index b (251 + 4) = Ok dl /\
    exists u,
      UnmarshalBinary b = Ok u /\
      DataLength u = Z_of_byte dl /\
      Data u = take (Z.to_nat (Z_of_byte dl)) b.
Proof.
  intros Hsum.
  pose proof (Length_nonneg cdpa) as HLA.
  pose proof (Length_nonneg cgpa) as HLB.
  set (LA := PartyAddress_Length cdpa) in *.
  set (LB := PartyAddress_Length cgpa) in *.
  set (zA := replicate (Z.to_nat (LA + 1)) x00).
  set (zB := replicate (Z.to_nat (LB + 1)) x00).
  assert (HzA : len zA = LA + 1)
    by (unfold len, zA; rewrite length_replicate; lia).
  assert (HzB : len zB = LB + 1)
    by (unfold len, zB; rewrite length_replicate; lia).
  destruct (MarshalTo_Parse cdpa zA) as (wA & _ & HA' & PA & _).
  { fold LA. lia. }
  { rewrite MarshalLen_Length. exact HzA. }
  destruct (MarshalTo_Parse cgpa zB) as (wB & _ & HB' & _ & PB).
  { fold LB. lia. }
  { rewrite MarshalLen_Length. exact HzB. }
  assert (HwA : len wA = LA + 1) by (rewrite (len_length _ _ HA'); exact HzA).
  assert (HwB : len wB = 249 - LA)
    by (rewrite (len_length _ _ HB'); lia).
  exists wA, wB. cbv zeta.
  destruct (UnmarshalBinary_ptr3_251 t (ProtocolClass_Value pc) p1
              (byte_of_Z (3 + LA)) (byte_of_Z 251) dl wA wB pc cdpa cgpa LA)
    as [Hl Hdec]; try assumption; try lia.
  - apply Read_Value.
  - apply Z_of_byte_of_Z_small. lia.
  - reflexivity.
  - split; [exact Hl|]. split.
    + rewrite (app_assoc wA wB).
      apply (index_middle
               ([t; ProtocolClass_Value pc; p1; byte_of_Z (3 + LA);
                 byte_of_Z 251] ++ wA ++ wB) dl []).
      rewrite !len_app.
      change (len [t; ProtocolClass_Value pc; p1; byte_of_Z (3 + LA);
                   byte_of_Z 251]) with 5. lia.
    + eexists. split; [exact Hdec|]. split; reflexivity.
Qed.

(** C3: the frame [09 00 03 00 03 00 00 05] has 8 bytes and a third
    pointer of 3, so its data-length byte is the last one, at index 7,
    declaring 5 bytes of data of which none follow.  Its second pointer
    is 0: no check rejects it, and the decoder panics on [b[5:3]],
    before any parser of package params is called, instead of returning
    [io.ErrUnexpectedEOF]. *)
Theorem UnmarshalBinary_ptr2_backwards {C : Codec} pc :
  ProtocolClass_Read (bytes [0; 3; 0; 3; 0; 0; 5]) = Ok (pc, 1) ->
  len frame_ptr2_0 = 8 /\
  omap Z_of_byte (index frame_ptr2_0 3) = Ok 0 /\
  omap Z_of_byte (index frame_ptr2_0 4) = Ok 3 /\
  omap Z_of_byte (index frame_ptr2_0 (3 + 4)) = Ok 5 /\
  len frame_ptr2_0 - (3 + 5) < 5 /\
  UnmarshalBinary frame_ptr2_0 = Panic SliceBoundsOutOfRange.
Proof.
  intros HRead.
  split; [reflexivity|]. split; [reflexivity|]. split; [reflexivity|].
  split; [reflexivity|]. split; [reflexivity|].
  unfold UnmarshalBinary. cbv zeta.
  change (len frame_ptr2_0 <=? 5) with false. cbv iota.
  change (index frame_ptr2_0 0) with (Ok (byte_of_Z 9)). cbn [bind].
  change (slice_from frame_ptr2_0 1)
    with (Ok (bytes [0; 3; 0; 3; 0; 0; 5])).
  cbn [bind]. rewrite HRead. cbn [bind].
  vm_compute. reflexivity.
Qed.

Lemma UnmarshalBinary_ptr2_backwards_witness :
  len frame_ptr2_0 = 8 /\
  omap Z_of_byte (index frame_ptr2_0 3) = Ok 0 /\
  omap Z_of_byte (index frame_ptr2_0 4) = Ok 3 /\
  omap Z_of_byte (index frame_ptr2_0 (3 + 4)) = Ok 5 /\
  len frame_ptr2_0 - (3 + 5) < 5 /\
  UnmarshalBinary (C := codec) frame_ptr2_0 = Panic SliceBoundsOutOfRange.
Proof.
  apply (UnmarshalBinary_ptr2_backwards (C := codec) (byte_of_Z 0)).
  reflexivity.
Defined.

End FramingSpec.

(* ===================================================================== *)
(** ** Further properties of package utils *)
(* ===================================================================== *)

Module UtilsMore.

Import utils preds examples UtilsSpec SliceFacts.

Lemma land_mul_pow2_small h lo k :
  0 <= k -> 0 <= lo < 2 ^ k -> Z.land (h * 2 ^ k) lo = 0.
Proof.
  intros Hk Hlo. rewrite <- Z.shiftl_mul_pow2 by exact Hk.
  apply Z.bits_inj'. intros i Hi.
  rewrite Z.land_spec, Z.bits_0.
  destruct (Z.lt_ge_cases i k) as [Hlt|Hge].
  - rewrite Z.shiftl_spec_low by exact Hlt. reflexivity.
  - apply andb_false_intro2.
    destruct (Z.eq_dec lo 0) as [->|Hne]; [apply Z.bits_0|].
    apply Z.bits_above_log2; [lia|].
    assert (Z.log2 lo < k) by (apply Z.log2_lt_pow2; lia). lia.
Qed.

Lemma lor_mul_pow2_add h lo k :
  0 <= k -> 0 <= lo < 2 ^ k -> Z.lor (h * 2 ^ k) lo = h * 2 ^ k + lo.
Proof.
  intros Hk Hlo. symmetry. apply Z.add_nocarry_lor.
  apply land_mul_pow2_small; assumption.
Qed.

Lemma byte_of_Z_congr a b : u8 a = u8 b -> byte_of_Z a = byte_of_Z b.
Proof. unfold byte_of_Z. intros ->. reflexivity. Qed.

Ltac pow_lia :=
  change (2 ^ 8) with 256 in *; change (2 ^ 16) with 65536 in *;
  change (2 ^ 24) with 16777216 in *; change (2 ^ 32) with 4294967296 in *;
  change (2 ^ 40) with 1099511627776 in *;
  change (2 ^ 64) with 18446744073709551616 in *;
  lia.

Lemma Uint24To32_value (b0 b1 b2 : byte) :
  Uint24To32 [b0; b1; b2]
  = Z_of_byte b0 * 65536 + Z_of_byte b1 * 256 + Z_of_byte b2.
Proof.
  pose proof (Z_of_byte_range b0). pose proof (Z_of_byte_range b1).
  pose proof (Z_of_byte_range b2).
  unfold Uint24To32.
  change (negb (len [b0; b1; b2] =? 3)) with false. cbv iota.
  rewrite !Z.shiftl_mul_pow2 by lia.
  rewrite (lor_mul_pow2_add (Z_of_byte b0) (Z_of_byte b1 * 2 ^ 8) 16)
    by pow_lia.
  replace (Z_of_byte b0 * 2 ^ 16 + Z_of_byte b1 * 2 ^ 8)
    with ((Z_of_byte b0 * 2 ^ 8 + Z_of_byte b1) * 2 ^ 8) by pow_lia.
  rewrite lor_mul_pow2_add by pow_lia. pow_lia.
Qed.

(** X1: for a [uint32] [n], [Uint24To32(Uint32To24(n))] is [n] without
    its top eight bits. *)
Theorem Uint24To32_Uint32To24 n :
  0 <= n < 2 ^ 32 -> Uint24To32 (Uint32To24 n) = n mod 2 ^ 24.
Proof.
  intros Hn. unfold Uint32To24. rewrite Uint24To32_value.
  rewrite !Z_of_byte_of_Z. unfold u8.
  rewrite !Z.shiftr_div_pow2 by lia.
  change (2 ^ 16) with 65536. change (2 ^ 8) with 256.
  change (2 ^ 24) with 16777216.
  zmod.
Qed.

Lemma Uint24To32_Uint32To24_witness :
  Uint24To32 (Uint32To24 2864434397) = 2864434397 mod 2 ^ 24.
Proof.
  apply (Uint24To32_Uint32To24 2864434397).
  vm_compute. split; [discriminate | reflexivity].
Defined.

(** X2: on a slice of exactly three bytes [Uint32To24] undoes
    [Uint24To32]. *)
Theorem Uint32To24_Uint24To32 b :
  len b = 3 -> Uint32To24 (Uint24To32 b) = b.
Proof.
  intros Hlen.
  destruct b as [|b0 [|b1 [|b2 [|b3 b]]]]; try discriminate Hlen.
  2:{ unfold len in Hlen. cbn [length] in Hlen. lia. }
  pose proof (Z_of_byte_range b0). pose proof (Z_of_byte_range b1).
  pose proof (Z_of_byte_range b2).
  rewrite Uint24To32_value. unfold Uint32To24.
  rewrite !Z.shiftr_div_pow2 by lia.
  change (2 ^ 16) with 65536. change (2 ^ 8) with 256.
  f_equal; [|f_equal; [|f_equal]].
  - rewrite <- (byte_of_Z_of_byte b0) at 2. apply byte_of_Z_congr.
    unfold u8. zmod.
  - rewrite <- (byte_of_Z_of_byte b1) at 2. apply byte_of_Z_congr.
    unfold u8. zmod.
  - rewrite <- (byte_of_Z_of_byte b2) at 2. apply byte_of_Z_congr.
    unfold u8. zmod.
Qed.

Lemma Uint32To24_Uint24To32_witness :
  Uint32To24 (Uint24To32 (bytes [1; 2; 255])) = bytes [1; 2; 255].
Proof.
  apply (Uint32To24_Uint24To32 (bytes [1; 2; 255])). reflexivity.
Defined.

Lemma Uint40To64_value (b0 b1 b2 b3 b4 : byte) :
  Uint40To64 [b0; b1; b2; b3; b4]
  = Z_of_byte b0 * 4294967296 + Z_of_byte b1 * 16777216
    + Z_of_byte b2 * 65536 + Z_of_byte b3 * 256 + Z_of_byte b4.
Proof.
  pose proof (Z_of_byte_range b0). pose proof (Z_of_byte_range b1).
  pose proof (Z_of_byte_range b2). pose proof (Z_of_byte_range b3).
  pose proof (Z_of_byte_range b4).
  unfold Uint40To64.
  change (negb (len [b0; b1; b2; b3; b4] =? 5)) with false. cbv iota.
  rewrite !Z.shiftl_mul_pow2 by lia.
  rewrite (lor_mul_pow2_add (Z_of_byte b0) (Z_of_byte b1 * 2 ^ 24) 32)
    by pow_lia.
  replace (Z_of_byte b0 * 2 ^ 32 + Z_of_byte b1 * 2 ^ 24)
    with ((Z_of_byte b0 * 2 ^ 8 + Z_of_byte b1) * 2 ^ 24) by pow_lia.
  rewrite (lor_mul_pow2_add _ (Z_of_byte b2 * 2 ^ 16) 24) by pow_lia.
  replace ((Z_of_byte b0 * 2 ^ 8 + Z_of_byte b1) * 2 ^ 24
           + Z_of_byte b2 * 2 ^ 16)
    with (((Z_of_byte b0 * 2 ^ 8 + Z_of_byte b1) * 2 ^ 8 + Z_of_byte b2)
          * 2 ^ 16) by pow_lia.
  rewrite (lor_mul_pow2_add _ (Z_of_byte b3 * 2 ^ 8) 16) by pow_lia.
  replace (((Z_of_byte b0 * 2 ^ 8 + Z_of_byte b1) * 2 ^ 8 + Z_of_byte b2)
           * 2 ^ 16 + Z_of_byte b3 * 2 ^ 8)
    with ((((Z_of_byte b0 * 2 ^ 8 + Z_of_byte b1) * 2 ^ 8 + Z_of_byte b2)
           * 2 ^ 8 + Z_of_byte b3) * 2 ^ 8) by pow_lia.
  rewrite lor_mul_pow2_add by pow_lia. pow_lia.
Qed.

(** X3: for a [uint64] [n], [Uint40To64(Uint64To40(n))] is [n] without
    its top 24 bits. *)
Theorem Uint40To64_Uint64To40 n :
  0 <= n < 2 ^ 64 -> Uint40To64 (Uint64To40 n) = n mod 2 ^ 40.
Proof.
  intros Hn. unfold Uint64To40. rewrite Uint40To64_value.
  rewrite !Z_of_byte_of_Z. unfold u8.
  rewrite !Z.shiftr_div_pow2 by lia.
  change (2 ^ 32) with 4294967296. change (2 ^ 24) with 16777216.
  change (2 ^ 16) with 65536. change (2 ^ 8) with 256.
  change (2 ^ 40) with 1099511627776.
  zmod.
Qed.

Lemma Uint40To64_Uint64To40_witness :
  Uint40To64 (Uint64To40 12302652060662169617)
  = 12302652060662169617 mod 2 ^ 40.
Proof.
  apply (Uint40To64_Uint64To40 12302652060662169617).
  vm_compute. split; [discriminate | reflexivity].
Defined.

(** X4: on a slice of exactly five bytes [Uint64To40] undoes
    [Uint40To64]. *)
Theorem Uint64To40_Uint40To64 b :
  len b = 5 -> Uint64To40 (Uint40To64 b) = b.
Proof.
  intros Hlen.
  destruct b as [|b0 [|b1 [|b2 [|b3 [|b4 [|b5 b]]]]]]; try discriminate Hlen.
  2:{ unfold len in Hlen. cbn [length] in Hlen. lia. }
  pose proof (Z_of_byte_range b0). pose proof (Z_of_byte_range b1).
  pose proof (Z_of_byte_range b2). pose proof (Z_of_byte_range b3).
  pose proof (Z_of_byte_range b4).
  rewrite Uint40To64_value. unfold Uint64To40.
  rewrite !Z.shiftr_div_pow2 by lia.
  change (2 ^ 32) with 4294967296. change (2 ^ 24) with 16777216.
  change (2 ^ 16) with 65536. change (2 ^ 8) with 256.
  f_equal; [|f_equal; [|f_equal; [|f_equal; [|f_equal]]]].
  - rewrite <- (byte_of_Z_of_byte b0) at 2. apply byte_of_Z_congr.
    unfold u8. zmod.
  - rewrite <- (byte_of_Z_of_byte b1) at 2. apply byte_of_Z_congr.
    unfold u8. zmod.
  - rewrite <- (byte_of_Z_of_byte b2) at 2. apply byte_of_Z_congr.
    unfold u8. zmod.
  - rewrite <- (byte_of_Z_of_byte b3) at 2. apply byte_of_Z_congr.
    unfold u8. zmod.
  - rewrite <- (byte_of_Z_of_byte b4) at 2. apply byte_of_Z_congr.
    unfold u8. zmod.
Qed.

Lemma Uint64To40_Uint40To64_witness :
  Uint64To40 (Uint40To64 (bytes [1; 2; 3; 4; 255])) = bytes [1; 2; 3; 4; 255].
Proof.
  apply (Uint64To40_Uint40To64 (bytes [1; 2; 3; 4; 255])). reflexivity.
Defined.

Lemma strlen_app (s t : string) : strlen (s ++ t) = strlen s + strlen t.
Proof.
  unfold strlen. induction s as [|c s IH]; cbn [String.append String.length].
  - lia.
  - unfold strlen in IH. lia.
Qed.

Lemma all_chars_app p (s t : string) :
  all_chars p (s ++ t) = all_chars p s && all_chars p t.
Proof.
  induction s as [|c s IH]; cbn [String.append all_chars].
  - reflexivity.
  - rewrite IH. apply andb_assoc.
Qed.

Lemma lower_digits_app (s t : string) :
  lower_digits (s ++ t) = (lower_digits s ++ lower_digits t)%string.
Proof.
  induction s as [|c s IH]; cbn [String.append lower_digits].
  - reflexivity.
  - rewrite IH. reflexivity.
Qed.

Lemma substring_prefix (s t : string) :
  String.substring 0 (String.length s) (s ++ t) = s.
Proof.
  induction s as [|c s IH]; cbn [String.append String.length String.substring].
  - destruct t; reflexivity.
  - rewrite IH. reflexivity.
Qed.

Lemma EncodeToString_length raw :
  strlen (hex.EncodeToString raw) = 2 * len raw.
Proof.
  unfold strlen, len. induction raw as [|x raw IH];
    cbn [hex.EncodeToString String.length length].
  - reflexivity.
  - lia.
Qed.

Lemma lower_digits_String_length s :
  String.length (lower_digits s) = String.length s.
Proof.
  induction s as [|c s IH]; cbn [lower_digits String.length].
  - reflexivity.
  - rewrite IH. reflexivity.
Qed.

Lemma lower_digits_length s : strlen (lower_digits s) = strlen s.
Proof. unfold strlen. rewrite lower_digits_String_length. reflexivity. Qed.

Lemma swap_length raw : len (swap raw) = len raw.
Proof. unfold swap, len. rewrite length_fmap. reflexivity. Qed.

(* Decoding: success and size *)
Lemma DecodeString_hex_len s raw :
  hex.DecodeString s = Ok raw -> 2 * len raw = strlen s.
Proof.
  revert raw. induction s as [| c | c d s IH] using string_pair_ind;
    intros raw H.
  - injection H as <-. reflexivity.
  - cbn in H. destruct (hex.fromHexChar c); discriminate H.
  - cbn [hex.DecodeString] in H.
    destruct (hex.fromHexChar c); [|discriminate H].
    destruct (hex.fromHexChar d); [|discriminate H].
    destruct (hex.DecodeString s) as [bs| |]; cbn [bind] in H;
      try discriminate H.
    injection H as <-. specialize (IH bs eq_refl).
    unfold strlen, len in *. cbn [String.length length]. lia.
Qed.

Lemma DecodeString_first_non_hex s c :
  first_non_hex s = Some c ->
  hex.DecodeString s = Err (HexInvalidByteError c).
Proof.
  induction s as [| p | p q s IH] using string_pair_ind; intros H.
  - discriminate H.
  - cbn in H. unfold is_hex_digit in H. cbn [hex.DecodeString].
    destruct (hex.fromHexChar p); [discriminate H|].
    injection H as <-. reflexivity.
  - cbn [first_non_hex] in H. unfold is_hex_digit in H.
    cbn [hex.DecodeString].
    destruct (hex.fromHexChar p); [|injection H as <-; reflexivity].
    destruct (hex.fromHexChar q); [|injection H as <-; reflexivity].
    rewrite (IH H). reflexivity.
Qed.

Lemma first_non_hex_app s t c :
  first_non_hex s = Some c -> first_non_hex (s ++ t) = Some c.
Proof.
  induction s as [|x s IH]; cbn [String.append first_non_hex]; intros H.
  - discriminate H.
  - destruct (is_hex_digit x); [apply IH; exact H | exact H].
Qed.

(** X7: whatever the filler and the parity of the length, a string with
    a character that is no hexadecimal digit is rejected with
    [hex.InvalidByteError] of the first such character. *)
Theorem StrToSwappedBytes_rejects s filler c :
  first_non_hex s = Some c ->
  StrToSwappedBytes s filler = Err (HexInvalidByteError c).
Proof.
  intros H. unfold StrToSwappedBytes.
  destruct (strlen s mod 2 =? 0).
  - rewrite (DecodeString_first_non_hex s c H). reflexivity.
  - rewrite (DecodeString_first_non_hex _ c (first_non_hex_app s filler c H)).
    reflexivity.
Qed.

Lemma StrToSwappedBytes_rejects_witness :
  StrToSwappedBytes "12g4z" "f" = Err (HexInvalidByteError "g").
Proof.
  apply (StrToSwappedBytes_rejects "12g4z" "f" "g"). reflexivity.
Defined.

(** With the filler ["f"] a string of hexadecimal digits is accepted
    whatever its parity; an odd length costs one more half byte. *)
Lemma StrToSwappedBytes_hex_size s :
  all_chars is_hex_digit s = true ->
  exists raw,
    StrToSwappedBytes s "f" = Ok raw /\
    2 * len raw = strlen s + strlen s mod 2.
Proof.
  intros Hhex. unfold StrToSwappedBytes.
  destruct (Z.eqb_spec (strlen s mod 2) 0) as [Heven|Hodd].
  - destruct (DecodeString_EncodeToString s Heven Hhex) as (raw & Hdec & _).
    exists (swap raw). rewrite Hdec. split; [reflexivity|].
    rewrite swap_length. apply DecodeString_hex_len in Hdec. lia.
  - assert (Heven : strlen (s ++ "f") mod 2 = 0).
    { rewrite strlen_app. change (strlen "f") with 1. zmod. }
    destruct (DecodeString_EncodeToString (s ++ "f") Heven)
      as (raw & Hdec & _).
    { rewrite all_chars_app, Hhex. reflexivity. }
    exists (swap raw). rewrite Hdec. split; [reflexivity|].
    rewrite swap_length. apply DecodeString_hex_len in Hdec.
    rewrite strlen_app in Hdec. change (strlen "f") with 1 in Hdec. zmod.
Qed.

(** X6: with the filler ["f"] a string of hexadecimal digits of any
    length is accepted, and the result has one byte per two digits,
    rounded up. *)
Theorem StrToSwappedBytes_accepts s :
  all_chars is_hex_digit s = true ->
  exists raw,
    StrToSwappedBytes s "f" = Ok raw /\ len raw = (strlen s + 1) / 2.
Proof.
  intros Hhex.
  destruct (StrToSwappedBytes_hex_size s Hhex) as (raw & Hraw & Hsize).
  exists raw. split; [exact Hraw|].
  assert (0 <= strlen s) by (unfold strlen; lia).
  zmod.
Qed.

Lemma StrToSwappedBytes_accepts_witness :
  exists raw,
    StrToSwappedBytes "12345" "f" = Ok raw /\ len raw = (strlen "12345" + 1) / 2.
Proof.
  apply (StrToSwappedBytes_accepts "12345"). reflexivity.
Defined.

(* odd round trip, lowercasing version *)
Lemma swapped_roundtrip_odd_lowercases s f :
  strlen s mod 2 = 1 ->
  all_chars is_hex_digit s = true ->
  is_hex_digit f = true ->
  exists raw,
    StrToSwappedBytes s (String f EmptyString) = Ok raw /\
    SwappedBytesToStr raw true = Ok (lower_digits s).
Proof.
  intros Hodd Hhex Hf.
  assert (Heven : strlen (s ++ String f EmptyString) mod 2 = 0).
  { rewrite strlen_app. change (strlen (String f EmptyString)) with 1. zmod. }
  destruct (DecodeString_EncodeToString (s ++ String f EmptyString) Heven)
    as (raw & Hdec & Henc).
  { rewrite all_chars_app, Hhex. cbn [all_chars]. rewrite Hf. reflexivity. }
  exists (swap raw). split.
  - unfold StrToSwappedBytes. rewrite Hodd.
    change (1 =? 0) with false. cbv iota. rewrite Hdec. reflexivity.
  - unfold SwappedBytesToStr. rewrite swap_involutive, Henc.
    rewrite lower_digits_app.
    rewrite (strlen_app (lower_digits s)), lower_digits_length.
    change (strlen (lower_digits (String f EmptyString))) with 1.
    replace (strlen s + 1 - 1) with (strlen s) by lia.
    destruct (Z.leb_spec 0 (strlen s)) as [_|Hneg];
      [|unfold strlen in Hneg; lia].
    f_equal. unfold strlen. rewrite Nat2Z.id.
    rewrite <- (lower_digits_String_length s). apply substring_prefix.
Qed.

(** X8: for a string [s] of odd length made of the digits [0-9a-f] and
    any one hexadecimal digit [f] as filler,
    [SwappedBytesToStr(StrToSwappedBytes(s, f), true)] is [s]. *)
Theorem swapped_roundtrip_odd s f :
  strlen s mod 2 = 1 ->
  all_chars is_lower_hex_digit s = true ->
  is_hex_digit f = true ->
  exists raw,
    StrToSwappedBytes s (String f EmptyString) = Ok raw /\
    SwappedBytesToStr raw true = Ok s.
Proof.
  intros Hodd Hlow Hf.
  destruct (swapped_roundtrip_odd_lowercases s f Hodd) as (raw & Henc & Hdec).
  { revert Hlow. apply all_chars_impl, lower_hex_is_hex. }
  { exact Hf. }
  exists raw. split; [exact Henc|].
  rewrite Hdec, (lower_digits_lower s Hlow). reflexivity.
Qed.

Lemma swapped_roundtrip_odd_witness :
  exists raw,
    StrToSwappedBytes "123" (String "0" EmptyString) = Ok raw /\
    SwappedBytesToStr raw true = Ok "123"%string.
Proof.
  apply (swapped_roundtrip_odd "123" "0"); reflexivity.
Defined.

(** X9: for a string [s] of the digits [0-9a-f], of either parity,
    [BCDEncode] succeeds and [BCDDecode] with [isOdd] set exactly when
    [len(s)] is odd gives [s] back. *)
Theorem BCD_roundtrip s :
  all_chars is_lower_hex_digit s = true ->
  exists raw,
    BCDEncode s = Ok raw /\
    BCDDecode (strlen s mod 2 =? 1) raw = Ok s.
Proof.
  intros Hlow.
  assert (Hhex : all_chars is_hex_digit s = true)
    by (revert Hlow; apply all_chars_impl, lower_hex_is_hex).
  unfold BCDEncode, BCDDecode.
  destruct (Z.eqb_spec (strlen s mod 2) 1) as [Hodd|Hnot].
  - destruct (swapped_roundtrip_odd_lowercases s "f" Hodd Hhex eq_refl)
      as (raw & Henc & Hdec).
    exists raw. split; [exact Henc|].
    rewrite Hdec, (lower_digits_lower s Hlow). reflexivity.
  - assert (Heven : strlen s mod 2 = 0) by zmod.
    destruct (swapped_roundtrip_lowercases s Heven Hhex)
      as (raw & Henc & Hdec).
    exists raw. split; [exact Henc|].
    rewrite Hdec, (lower_digits_lower s Hlow). reflexivity.
Qed.

Lemma BCD_roundtrip_witness :
  exists raw,
    BCDEncode "12345" = Ok raw /\
    BCDDecode (strlen "12345" mod 2 =? 1) raw = Ok "12345"%string.
Proof.
  apply (BCD_roundtrip "12345"). reflexivity.
Defined.

(** X5: [swap] is its own inverse and keeps the length. *)
Theorem swap_own_inverse raw :
  swap (swap raw) = raw /\ len (swap raw) = len raw.
Proof.
  split.
  - unfold swap. induction raw as [|x raw IH]; cbn [fmap list_fmap].
    + reflexivity.
    + f_equal; [destruct x; reflexivity | exact IH].
  - unfold swap, len. rewrite length_fmap. reflexivity.
Qed.

(* ---------- PLMN ---------- *)

Lemma swapped_nibbles x y :
  0 <= x < 16 -> 0 <= y < 16 ->
  Z.shiftr (Z_of_byte (swap_byte (byte_of_Z (Z.lor (Z.shiftl x 4) y)))) 4 = y /\
  Z.land (Z_of_byte (swap_byte (byte_of_Z (Z.lor (Z.shiftl x 4) y)))) 15 = x.
Proof.
  intros Hx Hy. enum_nibble x; enum_nibble y; split; reflexivity.
Qed.

Lemma plmn_middle_nibbles c g :
  0 <= c < 16 -> 0 <= g < 16 ->
  let c1 := swap_byte (byte_of_Z (Z.lor (Z.shiftl c 4) 15)) in
  let n1 := swap_byte (byte_of_Z (Z.lor (Z.shiftl g 4) 15)) in
  let m := byte_of_Z
             (Z.lor (Z.land (Z_of_byte c1) 15)
                    (Z.land (u8 (Z.shiftl (Z_of_byte n1) 4)) 240)) in
  Z.shiftr (Z_of_byte m) 4 = g /\ Z.land (Z_of_byte m) 15 = c.
Proof.
  intros Hc Hg. enum_nibble c; enum_nibble g; split; reflexivity.
Qed.

Lemma decimal_digit_facts a :
  is_decimal_digit a = true ->
  exists v,
    hex.fromHexChar a = Some v /\ 0 <= v < 16 /\ hex.hextable v = a /\
    string_of_byte a = String a EmptyString /\
    String.eqb (String a EmptyString) "f" = false.
Proof.
  destruct a as [[] [] [] [] [] [] [] []]; vm_compute; intros E;
    try discriminate E;
    (eexists; split; [reflexivity|];
     split; [split; [discriminate | reflexivity]|];
     split; [reflexivity|]; split; reflexivity).
Qed.

Lemma StrToSwappedBytes_two a b va vb :
  hex.fromHexChar a = Some va -> hex.fromHexChar b = Some vb ->
  StrToSwappedBytes (String a (String b EmptyString)) "f"
  = Ok [swap_byte (byte_of_Z (Z.lor (Z.shiftl va 4) vb))].
Proof.
  intros Ea Eb. unfold StrToSwappedBytes.
  change (strlen (String a (String b EmptyString)) mod 2 =? 0) with true.
  cbv iota. cbn [hex.DecodeString]. rewrite Ea, Eb. reflexivity.
Qed.

Lemma StrToSwappedBytes_three a b c va vb vc :
  hex.fromHexChar a = Some va -> hex.fromHexChar b = Some vb ->
  hex.fromHexChar c = Some vc ->
  StrToSwappedBytes (String a (String b (String c EmptyString))) "f"
  = Ok [swap_byte (byte_of_Z (Z.lor (Z.shiftl va 4) vb));
        swap_byte (byte_of_Z (Z.lor (Z.shiftl vc 4) 15))].
Proof.
  intros Ea Eb Ec. unfold StrToSwappedBytes.
  change (strlen (String a (String b (String c EmptyString))) mod 2 =? 0)
    with false.
  cbv iota. cbn [String.append hex.DecodeString]. rewrite Ea, Eb, Ec.
  reflexivity.
Qed.

Lemma strlen_three s :
  strlen s = 3 -> exists a b c, s = String a (String b (String c EmptyString)).
Proof.
  destruct s as [|a [|b [|c [|d s]]]]; intros H; try discriminate H.
  - eauto.
  - unfold strlen in H. cbn [String.length] in H. lia.
Qed.

Lemma strlen_two s :
  strlen s = 2 -> exists a b, s = String a (String b EmptyString).
Proof.
  destruct s as [|a [|b [|c s]]]; intros H; try discriminate H.
  - eauto.
  - unfold strlen in H. cbn [String.length] in H. lia.
Qed.

Lemma DecodePLMN_three (b0 b1 b2 : byte) r0 r1 r2 r3 r4 r5 :
  hex.hextable (Z.shiftr (Z_of_byte b0) 4) = r0 ->
  hex.hextable (Z.land (Z_of_byte b0) 15) = r1 ->
  hex.hextable (Z.shiftr (Z_of_byte b1) 4) = r2 ->
  hex.hextable (Z.land (Z_of_byte b1) 15) = r3 ->
  hex.hextable (Z.shiftr (Z_of_byte b2) 4) = r4 ->
  hex.hextable (Z.land (Z_of_byte b2) 15) = r5 ->
  DecodePLMN [b0; b1; b2]
  = Ok ((string_of_byte r1 ++ string_of_byte r0 ++ string_of_byte r3)%string,
        if String.eqb (string_of_byte r2) "f"
        then (string_of_byte r5 ++ string_of_byte r4)%string
        else ((string_of_byte r5 ++ string_of_byte r4)
              ++ string_of_byte r2)%string).
Proof.
  intros <- <- <- <- <- <-. reflexivity.
Qed.

(** X10: for an MCC of three decimal digits and an MNC of two or three
    decimal digits, [EncodePLMN] gives three bytes and [DecodePLMN] of
    them gives the MCC and the MNC back. *)
Theorem PLMN_roundtrip mcc mnc :
  strlen mcc = 3 ->
  strlen mnc = 2 \/ strlen mnc = 3 ->
  all_chars is_decimal_digit mcc = true ->
  all_chars is_decimal_digit mnc = true ->
  exists b,
    EncodePLMN mcc mnc = Ok b /\ len b = 3 /\ DecodePLMN b = Ok (mcc, mnc).
Proof.
  intros Hmcc Hmnc Dmcc Dmnc.
  destruct (strlen_three mcc Hmcc) as (a & b & c & ->).
  cbn [all_chars] in Dmcc.
  apply andb_prop in Dmcc as [Da Dmcc]. apply andb_prop in Dmcc as [Db Dmcc].
  apply andb_prop in Dmcc as [Dc _].
  destruct (decimal_digit_facts a Da) as (va & Ea & Ra & Ha & Sa & _).
  destruct (decimal_digit_facts b Db) as (vb & Eb & Rb & Hb & Sb & _).
  destruct (decimal_digit_facts c Dc) as (vc & Ec & Rc & Hc & Sc & _).
  destruct (swapped_nibbles va vb Ra Rb) as [Hab_hi Hab_lo].
  destruct Hmnc as [Hmnc|Hmnc].
  - destruct (strlen_two mnc Hmnc) as (d & e & ->).
    cbn [all_chars] in Dmnc.
    apply andb_prop in Dmnc as [Dd Dmnc]. apply andb_prop in Dmnc as [De _].
    destruct (decimal_digit_facts d Dd) as (vd & Ed & Rd & Hd & Sd & _).
    destruct (decimal_digit_facts e De) as (ve & Ee & Re & He & Se & _).
    destruct (swapped_nibbles vd ve Rd Re) as [Hde_hi Hde_lo].
    destruct (swapped_nibbles vc 15 Rc) as [Hcf_hi Hcf_lo]; [lia|].
    eexists. split; [|split].
    + unfold EncodePLMN.
      rewrite (StrToSwappedBytes_three a b c va vb vc Ea Eb Ec).
      rewrite (StrToSwappedBytes_two d e vd ve Ed Ee).
      cbn [bind].
      change (strlen (String d (String e EmptyString)) =? 2) with true.
      cbv iota. cbn [app]. reflexivity.
    + reflexivity.
    + erewrite DecodePLMN_three; try reflexivity.
      rewrite Hab_hi, Hab_lo, Hcf_hi, Hcf_lo, Hde_hi, Hde_lo.
      rewrite Ha, Hb, Hc, Hd, He.
      change (hex.hextable 15) with "f"%char.
      rewrite Sa, Sb, Sc, Sd, Se.
      reflexivity.
  - destruct (strlen_three mnc Hmnc) as (d & e & g & ->).
    cbn [all_chars] in Dmnc.
    apply andb_prop in Dmnc as [Dd Dmnc]. apply andb_prop in Dmnc as [De Dmnc].
    apply andb_prop in Dmnc as [Dg _].
    destruct (decimal_digit_facts d Dd) as (vd & Ed & Rd & Hd & Sd & _).
    destruct (decimal_digit_facts e De) as (ve & Ee & Re & He & Se & _).
    destruct (decimal_digit_facts g Dg) as (vg & Eg & Rg & Hg & Sg & Ng).
    destruct (swapped_nibbles vd ve Rd Re) as [Hde_hi Hde_lo].
    destruct (plmn_middle_nibbles vc vg Rc Rg) as [Hmid_hi Hmid_lo].
    cbv zeta in Hmid_hi, Hmid_lo.
    exists [swap_byte (byte_of_Z (Z.lor (Z.shiftl va 4) vb));
            byte_of_Z
              (Z.lor
                 (Z.land
                    (Z_of_byte
                       (swap_byte (byte_of_Z (Z.lor (Z.shiftl vc 4) 15))))
                    15)
                 (Z.land
                    (u8 (Z.shiftl
                           (Z_of_byte
                              (swap_byte
                                 (byte_of_Z (Z.lor (Z.shiftl vg 4) 15))))
                           4))
                    240));
            swap_byte (byte_of_Z (Z.lor (Z.shiftl vd 4) ve))].
    split; [|split].
    + unfold EncodePLMN.
      rewrite (StrToSwappedBytes_three a b c va vb vc Ea Eb Ec).
      rewrite (StrToSwappedBytes_three d e g vd ve vg Ed Ee Eg).
      cbn [bind].
      change (strlen (String d (String e (String g EmptyString))) =? 2)
        with false.
      cbv iota. reflexivity.
    + reflexivity.
    + erewrite DecodePLMN_three; try reflexivity.
      rewrite Hab_hi, Hab_lo, Hmid_hi, Hmid_lo, Hde_hi, Hde_lo.
      rewrite Ha, Hb, Hc, Hd, He, Hg.
      rewrite Sa, Sb, Sc, Sd, Se, Sg, Ng.
      reflexivity.
Qed.

Lemma PLMN_roundtrip_witness :
  exists b,
    EncodePLMN "310" "026" = Ok b /\ len b = 3 /\
    DecodePLMN b = Ok ("310"%string, "026"%string).
Proof.
  apply (PLMN_roundtrip "310" "026"); try reflexivity.
  right. reflexivity.
Defined.

Lemma index_out {A} (b : list A) i :
  len b <= i -> index b i = Panic IndexOutOfRange.
Proof.
  intros H. unfold index.
  destruct (0 <=? i); cbn [andb]; [|reflexivity].
  destruct (Z.ltb_spec i (len b)); [lia|reflexivity].
Qed.

Lemma index_cases {A} (b : list A) i :
  index b i = Panic IndexOutOfRange \/ exists x, index b i = Ok x.
Proof.
  unfold index. destruct ((0 <=? i) && (i <? len b)); [|left; reflexivity].
  destruct (b !! Z.to_nat i); [right; eauto | left; reflexivity].
Qed.

(** X11: [EncodePLMN] on hexadecimal digits panics with an index out of
    range when the MNC has not two digits and either the MCC has at
    most two digits or the MNC at most one. *)
Theorem EncodePLMN_short_panics mcc mnc :
  all_chars is_hex_digit mcc = true ->
  all_chars is_hex_digit mnc = true ->
  strlen mnc <> 2 ->
  strlen mcc <= 2 \/ strlen mnc <= 1 ->
  EncodePLMN mcc mnc = Panic IndexOutOfRange.
Proof.
  intros Hmcc Hmnc Hne Hshort.
  assert (Pmcc : 0 <= strlen mcc) by (unfold strlen; lia).
  assert (Pmnc : 0 <= strlen mnc) by (unfold strlen; lia).
  destruct (StrToSwappedBytes_hex_size mcc Hmcc) as (c & Hc & Lc).
  destruct (StrToSwappedBytes_hex_size mnc Hmnc) as (n & Hn & Ln).
  unfold EncodePLMN. rewrite Hc, Hn. cbn [bind].
  destruct (Z.eqb_spec (strlen mnc) 2) as [|_]; [contradiction|].
  destruct (index_cases c 0) as [E0|[c0 E0]]; rewrite E0; cbn [bind];
    [reflexivity|].
  change (store (replicate 3 x00) 0 c0) with (Ok [c0; x00; x00]).
  cbn [bind].
  destruct (index_cases c 1) as [E1|[c1 E1]]; rewrite E1; cbn [bind];
    [reflexivity|].
  assert (Hn1 : index n 1 = Panic IndexOutOfRange).
  { apply index_out.
    destruct Hshort as [Hs|Hs]; [|zmod].
    exfalso. rewrite index_out in E1 by zmod. discriminate E1. }
  rewrite Hn1. reflexivity.
Qed.

Lemma EncodePLMN_short_panics_witness :
  EncodePLMN "310" "7" = Panic IndexOutOfRange.
Proof.
  apply (EncodePLMN_short_panics "310" "7"); try reflexivity.
  - vm_compute. discriminate.
  - right. vm_compute. discriminate.
Defined.

(** X12: [DecodePLMN] panics with an index out of range on fewer than
    three bytes; on three bytes or more it returns a result, never an
    error, and reads the first three bytes only. *)
Theorem DecodePLMN_total_from_three b :
  (len b < 3 /\ DecodePLMN b = Panic IndexOutOfRange) \/
  (3 <= len b /\
   DecodePLMN b = DecodePLMN (take 3 b) /\
   exists mcc mnc, DecodePLMN b = Ok (mcc, mnc)).
Proof.
  destruct b as [|b0 [|b1 [|b2 rest]]].
  - left. split; [reflexivity|reflexivity].
  - left. split; [reflexivity|reflexivity].
  - left. split; [reflexivity|reflexivity].
  - right. split; [rewrite !len_cons; pose proof (len_nonneg rest); lia|].
    split; [reflexivity|].
    eexists. eexists. unfold DecodePLMN. cbn [hex.EncodeToString].
    reflexivity.
Qed.

End UtilsMore.

(* ===================================================================== *)
(** ** Further properties of package sccp *)
(* ===================================================================== *)

Module SccpMore.

Import params sccp preds examples SliceFacts SccpSpec FramingSpec.

Lemma slice_Ok {A} (b w : list A) lo hi :
  slice b lo hi = Ok w -> 0 <= lo /\ lo <= hi /\ hi <= len b /\ len w = hi - lo.
Proof.
  unfold slice. intros H.
  destruct ((0 <=? lo) && (lo <=? hi) && (hi <=? len b)) eqn:E;
    [|discriminate H].
  apply andb_prop in E as [E E2]. apply andb_prop in E as [E0 E1].
  apply Z.leb_le in E0, E1, E2. injection H as <-.
  repeat split; try lia. unfold len in *.
  rewrite length_take, length_drop. lia.
Qed.

Lemma store_Ok_len {A} (b b' : list A) i x :
  store b i x = Ok b' -> len b' = len b.
Proof.
  unfold store. intros H.
  destruct ((0 <=? i) && (i <? len b)); [|discriminate H].
  injection H as <-. unfold len. rewrite length_insert. reflexivity.
Qed.

Lemma write_back_len {A} (b w : list A) lo :
  0 <= lo -> lo + len w <= len b -> len (write_back b lo w) = len b.
Proof.
  intros H0 H1. unfold write_back, len in *.
  rewrite !length_app, length_take, length_drop. lia.
Qed.

(** Follow the one path of a decoder or encoder run that ends in [Ok]. *)
Ltac ok_path H :=
  repeat match type of H with
         | (if ?c then _ else _) = _ =>
             destruct c eqn:?; try discriminate H
         | bind ?m _ = _ =>
             destruct m eqn:?; cbn [bind] in H; try discriminate H
         | (let (_, _) := ?r in _) = _ => destruct r
         end.

(** X13: whatever package params does, a UDT that [UnmarshalBinary]
    returns comes from a buffer of at least six bytes, carries the first
    byte as [Type], has its three pointers in the byte range,
    [DataLength] equal to [len(Data)], at most 255 bytes of data, and
    a [ProtocolClass] that is not [nil]. *)
Theorem UnmarshalBinary_Ok_fields {C : Codec} (b : list byte) (u : UDT C) :
  UnmarshalBinary b = Ok u ->
  6 <= len b /\
  omap Z_of_byte (index b 0) = Ok (Type_ u) /\
  0 <= Ptr1 u <= 255 /\ 0 <= Ptr2 u <= 255 /\ 0 <= Ptr3 u <= 255 /\
  Ptr1 u <= len b /\
  DataLength u = len (Data u) /\
  len (Data u) <= 255 /\
  len (Data u) <= len b /\
  ProtocolClass u <> None.
Proof.
  unfold UnmarshalBinary. cbv zeta. intros H. ok_path H.
  injection H as <-.
  cbn [Type_ ProtocolClass Ptr1 Ptr2 Ptr3 CalledPartyAddress
       CallingPartyAddress DataLength Data].
  repeat match goal with
         | x : byte |- _ =>
             lazymatch goal with
             | _ : 0 <= Z_of_byte x < 256 |- _ => fail
             | _ => pose proof (Z_of_byte_range x)
             end
         end.
  repeat match goal with
         | E : (_ <=? _) = false |- _ => apply Z.leb_gt in E
         | E : (_ <? _) = false |- _ => apply Z.ltb_ge in E
         | E : slice _ _ _ = Ok _ |- _ => apply slice_Ok in E
         end.
  repeat split; try discriminate; try lia.
Qed.

Lemma UnmarshalBinary_Ok_fields_witness :
  6 <= len scenario_wire /\
  omap Z_of_byte (index scenario_wire 0) = Ok (Type_ scenario) /\
  0 <= Ptr1 scenario <= 255 /\ 0 <= Ptr2 scenario <= 255 /\
  0 <= Ptr3 scenario <= 255 /\
  Ptr1 scenario <= len scenario_wire /\
  DataLength scenario = len (Data scenario) /\
  len (Data scenario) <= 255 /\
  len (Data scenario) <= len scenario_wire /\
  ProtocolClass scenario <> None.
Proof.
  apply (UnmarshalBinary_Ok_fields (C := codec) scenario_wire scenario).
  vm_compute. reflexivity.
Defined.

Lemma UnmarshalBinary_Type {C : Codec} b0 rest (u : UDT C) :
  UnmarshalBinary (b0 :: rest) = Ok u -> Type_ u = Z_of_byte b0.
Proof.
  unfold UnmarshalBinary. cbv zeta. intros H. ok_path H.
  injection H as <-. cbn [Type_].
  match goal with
  | E : index (b0 :: rest) 0 = Ok _ |- _ =>
      change (index (b0 :: rest) 0) with (Ok b0) in E; injection E as <-
  end.
  reflexivity.
Qed.

(** X14: a message that [ParseMessage] returns is the UDT that
    [ParseUDT] returns on the same buffer, the first byte of the buffer
    is 9, and the [Type] of the UDT is [MsgTypeUDT]. *)
Theorem ParseMessage_Ok_UDT {C : Codec} (b : list byte) (m : Message C) :
  ParseMessage b = Ok m ->
  exists u,
    m = MessageUDT u /\ Type_ u = MsgTypeUDT /\ ParseUDT b = Ok u /\
    omap Z_of_byte (index b 0) = Ok MsgTypeUDT.
Proof.
  intros H. destruct b as [|b0 rest]; [discriminate H|].
  rewrite ParseMessage_cons in H. unfold ParseMessage_switch in H.
  destruct (Z.eqb_spec (Z_of_byte b0) MsgTypeUDT) as [Htag|_];
    cbn [bind] in H; [|discriminate H].
  unfold omap in H.
  destruct (UnmarshalBinary (b0 :: rest)) as [u| |] eqn:E;
    cbn [bind] in H; try discriminate H.
  injection H as <-. exists u.
  split; [reflexivity|]. split.
  - rewrite (UnmarshalBinary_Type b0 rest u E). exact Htag.
  - split; [exact E|].
    change (index (b0 :: rest) 0) with (Ok b0).
    unfold omap. cbn [bind]. rewrite Htag. reflexivity.
Qed.

Lemma ParseMessage_Ok_UDT_witness :
  exists u,
    MessageUDT scenario = MessageUDT u /\ Type_ u = MsgTypeUDT /\
    ParseUDT scenario_wire = Ok u /\
    omap Z_of_byte (index scenario_wire 0) = Ok MsgTypeUDT.
Proof.
  apply (ParseMessage_Ok_UDT (C := codec) scenario_wire (MessageUDT scenario)).
  vm_compute. reflexivity.
Defined.

Lemma UnmarshalBinary_constructed {C : Codec} {K : Contract C}
    pcls retOnErr cdpa cgpa data wA wB extra :
  PartyAddress_Length cdpa + PartyAddress_Length cgpa <= 247 ->
  len data <= 255 ->
  len wA = PartyAddress_Length cdpa + 1 ->
  len wB = PartyAddress_Length cgpa + 1 ->
  ParseCalledPartyAddress wA = Ok cdpa ->
  ParseCallingPartyAddress wB = Ok cgpa ->
  UnmarshalBinary
    ((byte_of_Z MsgTypeUDT
        :: ProtocolClass_Value (NewProtocolClass pcls retOnErr)
        :: byte_of_Z 3
        :: byte_of_Z (3 + PartyAddress_Length cdpa)
        :: byte_of_Z (3 + PartyAddress_Length cdpa
                      + PartyAddress_Length cgpa)
        :: wA ++ wB ++ byte_of_Z (len data) :: data) ++ extra)
  = Ok (NewUDT pcls retOnErr cdpa cgpa data).
Proof.
  intros Hsum Hdata HwA HwB PA PB.
  pose proof (Length_nonneg cdpa) as HLA.
  pose proof (Length_nonneg cgpa) as HLB.
  pose proof (len_nonneg data) as Hd.
  pose proof (len_nonneg extra) as He.
  cbn [app]. rewrite <- !app_assoc. cbn [app].
  rewrite (UnmarshalBinary_blocks _ _ _ _ _ _ wA wB (data ++ extra)
             (NewProtocolClass pcls retOnErr) cdpa cgpa
             (PartyAddress_Length cdpa) (PartyAddress_Length cgpa));
    try assumption; try lia.
  - rewrite (Z_of_byte_of_Z_small (len data)) by lia.
    destruct (Z.ltb_spec (len (data ++ extra)) (len data)) as [Hbad|_].
    { rewrite len_app in Hbad. lia. }
    rewrite take_app_length' by (unfold len; lia).
    rewrite (NewUDT_in_range pcls retOnErr cdpa cgpa data) by lia.
    reflexivity.
  - apply Read_Value.
  - reflexivity.
  - apply Z_of_byte_of_Z_small. lia.
  - apply Z_of_byte_of_Z_small. lia.
Qed.

(** X15: under the collaborator contracts, for address lengths that sum
    to at most 247 and a payload of at most 255 bytes, [ParseUDT]
    returns the constructed UDT from its encoding followed by any
    further bytes. *)
Theorem ParseUDT_ignores_trailing_bytes {C : Codec} {K : Contract C}
    pcls retOnErr cdpa cgpa data :
  PartyAddress_Length cdpa + PartyAddress_Length cgpa <= 247 ->
  len data <= 255 ->
  exists b,
    MarshalBinary (NewUDT pcls retOnErr cdpa cgpa data) = Ok b /\
    forall extra,
      ParseUDT (b ++ extra) = Ok (NewUDT pcls retOnErr cdpa cgpa data).
Proof.
  intros Hsum Hdata.
  destruct (MarshalBinary_constructed pcls retOnErr cdpa cgpa data Hsum Hdata)
    as (wA & wB & Hb & HwA & HwB & PA & PB).
  eexists. split; [exact Hb|].
  intros extra. unfold ParseUDT.
  apply UnmarshalBinary_constructed; assumption.
Qed.

Lemma ParseUDT_ignores_trailing_bytes_witness :
  exists b,
    MarshalBinary scenario = Ok b /\
    forall extra, ParseUDT (b ++ extra) = Ok scenario.
Proof.
  apply (ParseUDT_ignores_trailing_bytes (C := codec) (K := Opaque_contract)
           0 false [] [] (bytes [222; 173]));
    vm_compute; discriminate.
Defined.

(** X17: under the same conditions [ParseMessage] returns the
    constructed UDT from its encoding. *)
Theorem ParseMessage_MarshalBinary {C : Codec} {K : Contract C}
    pcls retOnErr cdpa cgpa data :
  PartyAddress_Length cdpa + PartyAddress_Length cgpa <= 247 ->
  len data <= 255 ->
  exists b,
    MarshalBinary (NewUDT pcls retOnErr cdpa cgpa data) = Ok b /\
    ParseMessage b = Ok (MessageUDT (NewUDT pcls retOnErr cdpa cgpa data)).
Proof.
  intros Hsum Hdata.
  destruct (MarshalBinary_constructed pcls retOnErr cdpa cgpa data Hsum Hdata)
    as (wA & wB & Hb & HwA & HwB & PA & PB).
  eexists. split; [exact Hb|].
  rewrite ParseMessage_cons. unfold ParseMessage_switch.
  change (Z_of_byte (byte_of_Z MsgTypeUDT) =? MsgTypeUDT) with true.
  cbv iota. cbn [bind]. unfold omap.
  match goal with
  | |- bind (UnmarshalBinary ?l) _ = _ =>
      rewrite <- (app_nil_r l)
  end.
  rewrite (UnmarshalBinary_constructed pcls retOnErr cdpa cgpa data wA wB [])
    by assumption.
  reflexivity.
Qed.

Lemma ParseMessage_MarshalBinary_witness :
  exists b,
    MarshalBinary scenario = Ok b /\
    ParseMessage b = Ok (MessageUDT scenario).
Proof.
  apply (ParseMessage_MarshalBinary (C := codec) (K := Opaque_contract)
           0 false [] [] (bytes [222; 173]));
    vm_compute; discriminate.
Defined.

Lemma len_take {A} (l : list A) k :
  0 <= k <= len l -> len (take (Z.to_nat k) l) = k.
Proof. intros H. unfold len in *. rewrite length_take. lia. Qed.

(** X16: under the same conditions [ParseUDT] rejects every proper
    prefix of the encoding with [io.ErrUnexpectedEOF]. *)
Theorem ParseUDT_rejects_proper_prefix {C : Codec} {K : Contract C}
    pcls retOnErr cdpa cgpa data :
  PartyAddress_Length cdpa + PartyAddress_Length cgpa <= 247 ->
  len data <= 255 ->
  exists b,
    MarshalBinary (NewUDT pcls retOnErr cdpa cgpa data) = Ok b /\
    forall k, 0 <= k < len b ->
      ParseUDT (take (Z.to_nat k) b) = Err ErrUnexpectedEOF.
Proof.
  intros Hsum Hdata.
  pose proof (Length_nonneg cdpa) as HLA.
  pose proof (Length_nonneg cgpa) as HLB.
  pose proof (len_nonneg data) as Hd.
  destruct (MarshalBinary_constructed pcls retOnErr cdpa cgpa data Hsum Hdata)
    as (wA & wB & Hb & HwA & HwB & PA & PB).
  set (LA := PartyAddress_Length cdpa) in *.
  set (LB := PartyAddress_Length cgpa) in *.
  eexists. split; [exact Hb|].
  intros k Hk. unfold ParseUDT.
  rewrite !len_cons, !len_app, len_cons in Hk.
  set (tail := wA ++ wB ++ byte_of_Z (len data) :: data) in *.
  assert (Htail : len tail = LA + LB + len data + 3).
  { unfold tail. rewrite !len_app, len_cons. lia. }
  destruct (Z.lt_ge_cases k 6) as [Hshort|Hlong].
  { apply UnmarshalBinary_short. rewrite len_take; [lia|].
    rewrite !len_cons. lia. }
  replace (Z.to_nat k) with (5 + Z.to_nat (k - 5))%nat by lia.
  cbn [take Nat.add].
  destruct (Z.lt_ge_cases k (8 + LA + LB)) as [Hptr|Hdat].
  - apply (UnmarshalBinary_pointer_checked _ _ _ _ _ _
             (NewProtocolClass pcls retOnErr)).
    + apply Read_Value.
    + right.
      rewrite (Z_of_byte_of_Z_small (3 + LA + LB)) by lia.
      rewrite !len_cons, len_take by lia. lia.
  - unfold tail.
    replace (Z.to_nat (k - 5))
      with (length wA + (length wB + S (Z.to_nat (k - 8 - LA - LB))))%nat
      by (unfold len in *; lia).
    rewrite take_app_add, take_app_add. cbn [take].
    apply (UnmarshalBinary_data_truncated _ _ _ _ _ _ wA wB _
             (NewProtocolClass pcls retOnErr) cdpa cgpa LA LB);
      try assumption; try lia.
    + apply Read_Value.
    + reflexivity.
    + apply Z_of_byte_of_Z_small. lia.
    + apply Z_of_byte_of_Z_small. lia.
    + rewrite (Z_of_byte_of_Z_small (len data)) by lia.
      rewrite len_take by lia. lia.
Qed.

Lemma ParseUDT_rejects_proper_prefix_witness :
  exists b,
    MarshalBinary scenario = Ok b /\
    forall k, 0 <= k < len b ->
      ParseUDT (C := codec) (take (Z.to_nat k) b) = Err ErrUnexpectedEOF.
Proof.
  apply (ParseUDT_rejects_proper_prefix (C := codec) (K := Opaque_contract)
           0 false [] [] (bytes [222; 173]));
    vm_compute; discriminate.
Defined.

Lemma Opaque_writes_in_place : writes_in_place codec.
Proof.
  intros a w w' H. cbn in H. unfold Opaque.MarshalTo, Opaque.MarshalLen in H.
  destruct (Z.ltb_spec (len w) (len a + 1)); [discriminate H|].
  injection H as <-. cbn [length]. rewrite length_app, length_drop.
  unfold len in *. lia.
Qed.

Lemma MarshalTo_len_preserved {C : Codec} (u : UDT C) b b' :
  writes_in_place C ->
  MarshalTo u b = Ok b' -> len b' = len b.
Proof.
  intros Hin. unfold MarshalTo. cbv zeta. intros H. ok_path H.
  injection H as <-.
  repeat match goal with
         | E : store _ _ _ = Ok _ |- _ => apply store_Ok_len in E
         | E : slice_from _ _ = Ok _ |- _ => apply slice_from_Ok in E
         | E : slice _ _ _ = Ok _ |- _ => apply slice_Ok in E
         | E : PartyAddress_MarshalTo _ _ = Ok _ |- _ =>
             apply Hin in E; apply len_length in E
         end.
  rewrite copy_at_len by lia.
  repeat match goal with
         | E : len ?x = len (write_back ?b ?lo ?w) |- _ =>
             rewrite (write_back_len b w lo) in E by lia
         end.
  lia.
Qed.

(** X18: when [PartyAddress.MarshalTo] writes in place, the buffer that
    [MarshalBinary] returns for any UDT has exactly [MarshalLen]
    bytes. *)
Theorem MarshalBinary_len_exact {C : Codec} (u : UDT C) b :
  writes_in_place C ->
  MarshalBinary u = Ok b -> len b = MarshalLen u.
Proof.
  intros Hin H. unfold MarshalBinary, make in H.
  destruct (Z.ltb_spec (MarshalLen u) 0) as [|Hpos]; cbn [bind] in H;
    [discriminate H|].
  apply (MarshalTo_len_preserved u _ _ Hin) in H.
  rewrite H. unfold len. rewrite length_replicate. lia.
Qed.

Lemma MarshalBinary_len_exact_witness :
  len scenario_wire = MarshalLen scenario.
Proof.
  apply (MarshalBinary_len_exact (C := codec) scenario scenario_wire).
  - exact Opaque_writes_in_place.
  - vm_compute. reflexivity.
Defined.

(** X19: when [PartyAddress.MarshalTo] writes in place, [MarshalTo]
    never returns [nil] on a buffer shorter than [Ptr3+5] (a [uint8]
    sum) plus [DataLength] bytes. *)
Theorem MarshalTo_short_buffer_fails {C : Codec} (u : UDT C) b b' :
  writes_in_place C ->
  0 <= DataLength u ->
  len b < u8 (Ptr3 u + 5) + DataLength u ->
  MarshalTo u b <> Ok b'.
Proof.
  intros Hin HDL Hshort H.
  pose proof (MarshalTo_len_preserved u b b' Hin H) as Hlen.
  pose proof (MarshalTo_Ok_len u b b' H HDL). lia.
Qed.

Lemma MarshalTo_short_buffer_fails_witness :
  MarshalTo scenario (replicate 9 x00) <> Ok scenario_wire.
Proof.
  apply (MarshalTo_short_buffer_fails (C := codec) scenario
           (replicate 9 x00) scenario_wire).
  - exact Opaque_writes_in_place.
  - vm_compute. discriminate.
  - vm_compute. reflexivity.
Defined.

Lemma Opaque_decoders_never_panic : decoders_never_panic codec.
Proof.
  repeat split.
  - intros [|x w] p; discriminate.
  - intros [|x w] pc n E; [discriminate E|]. injection E as _ <-. reflexivity.
  - intros [|x w] p; cbn; [discriminate|].
    destruct (len w <? Z_of_byte x); discriminate.
  - intros [|x w] p; cbn; [discriminate|].
    destruct (len w <? Z_of_byte x); discriminate.
Qed.

Lemma slice_in_range {A} (b : list A) lo hi :
  0 <= lo -> lo <= hi -> hi <= len b -> exists w, slice b lo hi = Ok w.
Proof.
  intros H0 H1 H2. unfold slice.
  assert (E : (0 <=? lo) && (lo <=? hi) && (hi <=? len b) = true).
  { repeat (apply andb_true_intro; split); apply Z.leb_le; assumption. }
  rewrite E. eauto.
Qed.

Lemma index_in_range {A} (b : list A) i :
  0 <= i < len b -> exists x, index b i = Ok x.
Proof.
  intros H. unfold index. rewrite in_range_true by exact H.
  destruct (b !! Z.to_nat i) as [x|] eqn:E; [eauto|].
  apply lookup_ge_None in E. unfold len in H. lia.
Qed.

(** X20: when the decoders of package params do not panic and the
    protocol class takes one byte, [UnmarshalBinary] does not panic on a
    buffer whose second pointer is at least 2, whose third pointer is at
    least the second one minus 1 and at most 250. *)
Theorem UnmarshalBinary_no_panic {C : Codec}
    (t pcb p1 p2 p3 : byte) (rest : list byte) p :
  decoders_never_panic C ->
  2 <= Z_of_byte p2 ->
  Z_of_byte p2 <= Z_of_byte p3 + 1 ->
  Z_of_byte p3 <= 250 ->
  UnmarshalBinary (t :: pcb :: p1 :: p2 :: p3 :: rest) <> Panic p.
Proof.
  intros (HR & Hn & HA & HB) H2 H23 H3.
  pose proof (Z_of_byte_range p1) as R1.
  pose proof (Z_of_byte_range p2) as R2.
  pose proof (Z_of_byte_range p3) as R3.
  pose proof (len_nonneg rest) as Hrest.
  set (b := t :: pcb :: p1 :: p2 :: p3 :: rest).
  assert (Hl : len b = 5 + len rest) by (subst b; rewrite !len_cons; lia).
  assert (E0 : index b 0 = Ok t)
    by (apply (index_middle [] t _ 0); reflexivity).
  assert (E1 : slice_from b 1 = Ok (pcb :: p1 :: p2 :: p3 :: rest))
    by (apply (slice_from_tail [t] _ 1); reflexivity).
  assert (E2 : index b (1 + 1) = Ok p1)
    by (apply (index_middle [t; pcb] p1 _ (1 + 1)); reflexivity).
  assert (E3 : index b (1 + 1 + 1) = Ok p2)
    by (apply (index_middle [t; pcb; p1] p2 _ (1 + 1 + 1)); reflexivity).
  assert (E4 : index b (1 + 1 + 2) = Ok p3)
    by (apply (index_middle [t; pcb; p1; p2] p3 _ (1 + 1 + 2)); reflexivity).
  assert (U2 : u8 (Z_of_byte p2 + 3) = Z_of_byte p2 + 3)
    by (apply u8_small; lia).
  assert (U3 : u8 (Z_of_byte p3 + 5) = Z_of_byte p3 + 5)
    by (apply u8_small; lia).
  assert (U4 : u8 (Z_of_byte p3 + 4) = Z_of_byte p3 + 4)
    by (apply u8_small; lia).
  unfold UnmarshalBinary. cbv zeta. fold b.
  destruct (Z.leb_spec (len b) 5); [discriminate|].
  rewrite E0; cbn [bind]. rewrite E1; cbn [bind].
  destruct (ProtocolClass_Read (pcb :: p1 :: p2 :: p3 :: rest))
    as [[pc n]|e|q] eqn:ER; cbn [bind]; [|discriminate|].
  2:{ exfalso. exact (HR _ _ ER). }
  rewrite (Hn _ _ _ ER).
  rewrite E2; cbn [bind].
  destruct (Z.ltb_spec (len b) (Z_of_byte p1)); [discriminate|].
  rewrite E3; cbn [bind]. rewrite !U2.
  destruct (Z.ltb_spec (len b) (Z_of_byte p2 + 3)); [discriminate|].
  rewrite E4; cbn [bind]. rewrite !U3, !U4.
  destruct (Z.ltb_spec (len b) (Z_of_byte p3 + 5)); [discriminate|].
  destruct (slice_in_range b (1 + 1 + 3) (Z_of_byte p2 + 3)) as [wA EA];
    try lia.
  rewrite EA; cbn [bind].
  destruct (ParseCalledPartyAddress wA) as [cdpa|e|q] eqn:PA; cbn [bind];
    [|discriminate|].
  2:{ exfalso. exact (HA _ _ PA). }
  destruct (slice_in_range b (Z_of_byte p2 + 3) (Z_of_byte p3 + 4))
    as [wB EB]; try lia.
  rewrite EB; cbn [bind].
  destruct (ParseCallingPartyAddress wB) as [cgpa|e|q] eqn:PB; cbn [bind];
    [|discriminate|].
  2:{ exfalso. exact (HB _ _ PB). }
  destruct (index_in_range b (Z_of_byte p3 + 4)) as [dl ED]; [lia|].
  rewrite ED; cbn [bind].
  pose proof (Z_of_byte_range dl) as Rd.
  rewrite Z.geb_leb.
  destruct (Z.leb_spec (Z_of_byte p3 + 5 + Z_of_byte dl) (len b));
    [|discriminate].
  destruct (slice_in_range b (Z_of_byte p3 + 5)
              (Z_of_byte p3 + 5 + Z_of_byte dl)) as [d EP]; try lia.
  rewrite EP; cbn [bind]. discriminate.
Qed.

Lemma UnmarshalBinary_no_panic_witness :
  UnmarshalBinary (C := codec) scenario_wire <> Panic SliceBoundsOutOfRange.
Proof.
  apply (UnmarshalBinary_no_panic (C := codec)
           (byte_of_Z 9) (byte_of_Z 0) (byte_of_Z 3) (byte_of_Z 3)
           (byte_of_Z 3) (bytes [0; 0; 2; 222; 173]) SliceBoundsOutOfRange).
  - exact Opaque_decoders_never_panic.
  - vm_compute. discriminate.
  - vm_compute. discriminate.
  - vm_compute. discriminate.
Defined.

End SccpMore.
